(** * A distributed file store: metadata over a replicated log, content by fan-out

    Shallow embedding of [DFS/main.go]: the command codec
    ([encodeCommand], [decodeCommand]), the metadata state machine
    ([DFSStateMachine.Apply]) and the HTTP handlers of a node
    ([createFileHandler], [replicateToFollowers], [getFileHandler],
    [replicateFileHandler]).

    Conventions.
    - Go's [string] is a sequence of bytes: Rocq's [string]; [[]byte] is
      [list byte]; the conversions [string(b)] and [[]byte(s)] are
      [string_of_list_byte] and [list_byte_of_string].
    - [uint64], [int64] and [int] (64-bit target) are [Z] with the
      wrap-around of each conversion written out.
    - A run-time panic of the Go program is the [Panic] outcome.
    - [sync.Map] keyed by path is a [gmap string File].
    - What a handler asks of the consensus engine and of its peers is
      answered by its surroundings ([goraft.Server], [world]); what it does to
      them is the list of [event]s it returns.  Of the log output only the
      lines that are the whole record of an outcome are kept: those of
      [replicateToFollowers] and the "Raft Apply error" line.
    - Response headers are left out; a response is its status and body. *)

From Stdlib Require Import ZArith Strings.Byte Ascii String List Lia.
From stdpp Require Import gmap strings list fin_maps pretty.

Open Scope Z_scope.

(** ** Machine integers *)

Module Int.

Definition two64 : Z := 2 ^ 64.
Definition two63 : Z := 2 ^ 63.

(** [uint64(x)] for a signed [x]: the value modulo 2^64. *)
Definition uint64 (x : Z) : Z := x mod two64.

(** [int64(x)] (and [int(x)] on a 64-bit target) for an unsigned [x]. *)
Definition int64 (x : Z) : Z :=
  let u := x mod two64 in if u <? two63 then u else u - two64.

Definition is_uint64 (x : Z) : Prop := 0 <= x < two64.
Definition is_int64 (x : Z) : Prop := - two63 <= x < two63.

(** [byte(v)]: the low eight bits. *)
Definition byte_of_Z (v : Z) : byte :=
  default x00 (Byte.of_N (Z.to_N (Z.land v 255))).

Definition Z_of_byte (b : byte) : Z := Z.of_N (Byte.to_N b).

End Int.

(** ** [encoding/binary], little endian *)

Module LittleEndian.
Import Int.

(** [binary.LittleEndian.PutUint64]: [b[i] = byte(v >> (8*i))]. *)
Definition PutUint64 (v : Z) : list byte :=
  [ byte_of_Z v;
    byte_of_Z (Z.shiftr v 8);
    byte_of_Z (Z.shiftr v 16);
    byte_of_Z (Z.shiftr v 24);
    byte_of_Z (Z.shiftr v 32);
    byte_of_Z (Z.shiftr v 40);
    byte_of_Z (Z.shiftr v 48);
    byte_of_Z (Z.shiftr v 56) ].

(** [binary.LittleEndian.Uint64]: the eight bytes or-ed at their lanes.
    Applied by [binary.Read] to a slice of exactly eight bytes. *)
Definition Uint64 (b : list byte) : Z :=
  match b with
  | [b0; b1; b2; b3; b4; b5; b6; b7] =>
      Z.lor (Z_of_byte b0)
     (Z.lor (Z.shiftl (Z_of_byte b1) 8)
     (Z.lor (Z.shiftl (Z_of_byte b2) 16)
     (Z.lor (Z.shiftl (Z_of_byte b3) 24)
     (Z.lor (Z.shiftl (Z_of_byte b4) 32)
     (Z.lor (Z.shiftl (Z_of_byte b5) 40)
     (Z.lor (Z.shiftl (Z_of_byte b6) 48)
            (Z.shiftl (Z_of_byte b7) 56)))))))
  | _ => 0
  end.

End LittleEndian.

(** ** Outcomes and the [bytes.Buffer] reader *)

Inductive panic : Type :=
| IndexOutOfRange      (* [s[0]] on an empty slice *)
| SliceBoundsOutOfRange. (* [b.buf[off : off+n]] with [n < 0] *)

Inductive outcome (A : Type) : Type :=
| Returned (a : A)
| Panic (p : panic).
Arguments Returned {A} a.
Arguments Panic {A} p.

#[global] Instance outcome_ret : MRet outcome := fun A a => Returned a.
#[global] Instance outcome_bind : MBind outcome := fun A B f m =>
  match m with
  | Returned a => f a
  | Panic p => Panic p
  end.

(** A computation over the unread part of a [bytes.Buffer]. *)
Definition Buffer (A : Type) : Type := list byte -> outcome (A * list byte).

#[global] Instance Buffer_ret : MRet Buffer := fun A a buf => Returned (a, buf).
#[global] Instance Buffer_bind : MBind Buffer := fun A B f m buf =>
  match m buf with
  | Returned (a, buf') => f a buf'
  | Panic p => Panic p
  end.

(** Go's [len]. *)
Definition len {A} (l : list A) : Z := Z.of_nat (length l).
Definition strlen (s : string) : Z := Z.of_nat (String.length s).

Module Buf.

(** [Buffer.Next(n)]: the next [n] unread bytes, or all of them when fewer
    remain; a negative [n] makes the slice expression panic. *)
Definition Next (n : Z) : Buffer (list byte) := fun buf =>
  let n := if len buf <? n then len buf else n in
  if n <? 0 then Panic SliceBoundsOutOfRange
  else Returned (take (Z.to_nat n) buf, drop (Z.to_nat n) buf).

(** [s[0]]. *)
Definition first (s : list byte) : Buffer byte := fun buf =>
  match s with
  | b :: _ => Returned (b, buf)
  | [] => Panic IndexOutOfRange
  end.

(** [binary.Read(buf, binary.LittleEndian, &x)] for [x] a [uint64] holding
    [cur]: with eight bytes unread, they are consumed and [x] is set; with
    fewer, [io.ReadFull] drains what is left, [Read] returns an error (which
    the caller drops) and [x] keeps its value. *)
Definition Read_uint64 (cur : Z) : Buffer Z := fun buf =>
  if 8 <=? len buf
  then Returned (LittleEndian.Uint64 (take 8 buf), drop 8 buf)
  else Returned (cur, []).

(** Run on a fresh buffer holding [msg] and drop what is left unread. *)
Definition run {A} (m : Buffer A) (msg : list byte) : outcome A :=
  match m msg with
  | Returned (a, _) => Returned a
  | Panic p => Panic p
  end.

End Buf.

(** ** Commands *)

#[global] Instance byte_eq_dec : EqDecision byte := Byte.byte_eq_dec.

(** [type commandKind uint8] *)
Definition commandKind : Type := byte.

Definition CreateFile : commandKind := x00.
Definition DeleteFile : commandKind := x01.
Definition RenameFile : commandKind := x02.

Record command : Type := mkCommand {
  Kind : commandKind;
  Path : string;
  OldPath : string;
  NewPath : string;
  Size : Z   (* int64 *)
}.

Definition encodeCommand (c : command) : list byte :=
  [Kind c]
  ++ LittleEndian.PutUint64 (Int.uint64 (strlen (Path c)))
  ++ list_byte_of_string (Path c)
  ++ LittleEndian.PutUint64 (Int.uint64 (strlen (OldPath c)))
  ++ list_byte_of_string (OldPath c)
  ++ LittleEndian.PutUint64 (Int.uint64 (strlen (NewPath c)))
  ++ list_byte_of_string (NewPath c)
  ++ LittleEndian.PutUint64 (Int.uint64 (Size c)).

Definition decodeCommand (msg : list byte) : outcome command :=
  Buf.run (
    b ← Buf.Next 1;
    kind ← Buf.first b;
    pathLen ← Buf.Read_uint64 0;
    path ← Buf.Next (Int.int64 pathLen);
    oldPathLen ← Buf.Read_uint64 0;
    oldPath ← Buf.Next (Int.int64 oldPathLen);
    newPathLen ← Buf.Read_uint64 0;
    newPath ← Buf.Next (Int.int64 newPathLen);
    size ← Buf.Read_uint64 0;
    mret {| Kind := kind;
            Path := string_of_list_byte path;
            OldPath := string_of_list_byte oldPath;
            NewPath := string_of_list_byte newPath;
            Size := Int.int64 size |}) msg.

(** The kinds the [switch] of [Apply] has a case for. *)
Definition recognized (k : commandKind) : Prop :=
  k = CreateFile \/ k = DeleteFile \/ k = RenameFile.

(** A command a Go program can hold: string lengths are [int]s and [Size] is
    an [int64]. *)
Record command_ok (c : command) : Prop := {
  ok_Path : strlen (Path c) < Int.two63;
  ok_OldPath : strlen (OldPath c) < Int.two63;
  ok_NewPath : strlen (NewPath c) < Int.two63;
  ok_Size : Int.is_int64 (Size c)
}.

(** ** The metadata state machine *)

(** [time.Time], as an instant on the node's clock. *)
Definition Time : Type := Z.

Module File.
Record t : Type := mk {
  Name : string;
  Size : Z;            (* int64 *)
  LastModified : Time
}.
End File.
Abbreviation File := File.t.

Inductive error : Type :=
| UnknownCommand (k : commandKind).   (* fmt.Errorf("unknown command: %v", c.Kind) *)

(** [DFSStateMachine]: the [sync.Map] from path to [*File]. *)
Record DFSStateMachine : Type := mkSM {
  files : gmap string File
}.

Definition NewDFSStateMachine : DFSStateMachine := {| files := ∅ |}.

(** [(s *DFSStateMachine).Apply(cmd)], with [now] the reading of [time.Now()].
    The returned [[]byte] is always [nil]; the result keeps the error. *)
Definition Apply (now : Time) (s : DFSStateMachine) (cmd : list byte)
  : outcome (DFSStateMachine * option error) :=
  c ← decodeCommand cmd;
  if decide (Kind c = CreateFile) then
    mret ({| files := <[Path c := File.mk (Path c) (Size c) now]> (files s) |}, None)
  else if decide (Kind c = DeleteFile) then
    mret ({| files := delete (Path c) (files s) |}, None)
  else if decide (Kind c = RenameFile) then
    mret ({| files :=
               <[NewPath c := File.mk (NewPath c) (Size c) now]>
                 (delete (OldPath c) (files s)) |}, None)
  else
    mret (s, Some (UnknownCommand (Kind c))).

(** Committed entries reach [Apply] one at a time, in log order; each entry is
    paired with the clock reading of its application.  The replay stops at the
    first entry [Apply] rejects. *)
Fixpoint replay (entries : list (Time * list byte)) (s : DFSStateMachine)
  : outcome (DFSStateMachine * option error) :=
  match entries with
  | [] => mret (s, None)
  | (now, cmd) :: rest =>
      r ← Apply now s cmd;
      match r with
      | (s', None) => replay rest s'
      | (s', Some e) => mret (s', Some e)
      end
  end.

(** ** Library functions the handlers call *)

(** [strings.TrimPrefix] *)
Definition strings_TrimPrefix (s prefix : string) : string :=
  if String.prefix prefix s
  then substring (String.length prefix) (String.length s - String.length prefix) s
  else s.

Definition IsPathSeparator (c : ascii) : bool := bool_decide (c = "/"%char).

Fixpoint drop_separators (l : list ascii) : list ascii :=
  match l with
  | c :: l' => if IsPathSeparator c then drop_separators l' else l
  | [] => []
  end.

Fixpoint upto_separator (l : list ascii) : list ascii :=
  match l with
  | c :: l' => if IsPathSeparator c then [] else c :: upto_separator l'
  | [] => []
  end.

(** [filepath.Base] with [/] as the separator: ["."] for the empty path,
    trailing separators stripped, then the last element, ["/"] when nothing is
    left. *)
Definition filepath_Base (path : string) : string :=
  if decide (path = "") then "."
  else
    let stripped := drop_separators (reverse (list_ascii_of_string path)) in
    let elem := reverse (upto_separator stripped) in
    if decide (elem = []) then "/" else string_of_list_ascii elem.

(** ** The data directory of a node

    [filepath.Join(hs.dataDir, filepath.Base(filePath))] names an entry of the
    data directory by the last element of the path; the directory is the map
    from that name to what the operating system holds there.  The names
    ["."], ["/"] and [".."], which [Join] resolves to the data directory and
    its parent, are entries of kind [Directory]. *)
Inductive inode : Type :=
| Regular (data : list byte)   (* a regular file and its bytes *)
| Directory                    (* opens, but can be neither created over nor read *)
| NoAccess.                    (* exists; [os.Open] and [os.Create] fail *)

#[global] Instance inode_eq_dec : EqDecision inode.
Proof. solve_decision. Defined.

(** [os.Create(name)]: create or truncate; [None] is the error. *)
Definition os_Create (name : string) (d : gmap string inode) : option (gmap string inode) :=
  match d !! name with
  | Some Directory | Some NoAccess => None
  | Some (Regular _) | None => Some (<[name := Regular []]> d)
  end.

(** Bytes of a file after [data] is written at offset [off]. *)
Definition write_at (off : nat) (data old : list byte) : list byte :=
  take off (old ++ replicate (off - length old) x00) ++ data
  ++ drop (off + length data) old.

(** [file.Write(b)] through a handle on [name] whose offset is [off]; the
    device accepts [room] more bytes.  Returns [n]; the call's error is
    non-nil exactly when [n < len(b)]. *)
Definition file_Write (room : nat) (name : string) (off : nat) (b : list byte)
    (d : gmap string inode) : nat * gmap string inode :=
  let n := Nat.min (length b) room in
  (n, match d !! name with
      | Some (Regular old) => <[name := Regular (write_at off (take n b) old)]> d
      | _ => d
      end).

(** [io.Copy(file, r.Body)]: one [Write] per chunk the body delivers, until a
    write falls short. *)
Fixpoint io_Copy_file (room : nat) (name : string) (off : nat)
    (chunks : list (list byte)) (d : gmap string inode) : gmap string inode :=
  match chunks with
  | [] => d
  | c :: rest =>
      let '(n, d') := file_Write room name off c d in
      if (n <? length c)%nat then d'
      else io_Copy_file (room - n) name (off + n) rest d'
  end.

(** ** HTTP *)

Record request : Type := mkRequest {
  Method : string;
  URL_Path : string;
  Body : list (list byte)   (* the body, as the reads that deliver it *)
}.

(** [io.ReadAll(r.Body)] *)
Definition io_ReadAll (body : list (list byte)) : list byte := concat body.

(** What the [http.ResponseWriter] has received when the handler returns. *)
Record response : Type := mkResponse {
  StatusCode : Z;
  Content : list byte
}.

Definition StatusOK : Z := 200.
Definition StatusCreated : Z := 201.
Definition StatusNotFound : Z := 404.
Definition StatusMethodNotAllowed : Z := 405.
Definition StatusInternalServerError : Z := 500.
Definition StatusServiceUnavailable : Z := 503.

Definition MethodGet : string := "GET".
Definition MethodPost : string := "POST".

Definition newline : string := String "010"%char "".

(** [http.Error(w, msg, code)]: the status and the message on a line. *)
Definition http_Error (msg : string) (code : Z) : response :=
  {| StatusCode := code; Content := list_byte_of_string (msg +:+ newline) |}.

(** ** The consensus engine, as the handlers see it *)

Module goraft.

Record ClusterMember : Type := mkMember {
  Id : Z;                (* uint64 *)
  Address : string;
  HttpAddress : string
}.

Inductive ApplyError : Type :=
| NotLeader
| ReplicationTimeout.

(** Modelled from the spec: package [goraft] is not among the sources.  The
    engine is described by what it answers: its leadership hint, its roster
    of followers, and for a proposed record either a commit or one of the
    two failures of [Propose]. *)
Record Server : Type := mkServer {
  IsLeader : bool;
  Followers : list ClusterMember;
  Propose : list byte -> option ApplyError
}.

(** Modelled from the spec: [Propose] "returns once a quorum durably stores
    and applies" the record, so a commit runs the state machine's [Apply] on
    this node before [raft.Apply] returns, and a failure applies nothing.
    The handler passes a single record and looks only at the error. *)
Definition Apply (raft : Server) (now : Time) (sm : DFSStateMachine)
    (record : list byte) : outcome (DFSStateMachine * option ApplyError) :=
  match Propose raft record with
  | Some e => mret (sm, Some e)
  | None => r ← Apply now sm record; mret (r.1, None)
  end.

End goraft.

(** ** A node and its surroundings *)

Record httpServer : Type := mkHttpServer {
  raft : goraft.Server;
  stateMachine : DFSStateMachine;
  dataDir : gmap string inode
}.

(** How one push to a peer ends. *)
Inductive push_result : Type :=
| RequestError            (* [http.NewRequest] fails *)
| TransportError          (* [client.Do] fails: refused connection, timeout *)
| Responded (status : Z). (* the peer answers, with any status *)

(** What a request finds around the node while it is handled. *)
Record world : Type := mkWorld {
  clock : Time;                                  (* [time.Now()] *)
  room : nat;                                    (* bytes the disk still accepts *)
  peer : goraft.ClusterMember -> push_result
}.

Inductive logline : Type :=
| LogNoFollowers
| LogRequestError (to : goraft.ClusterMember)
| LogReplicateError (to : goraft.ClusterMember)
| LogReplicated (to : goraft.ClusterMember) (status : Z)
| LogRaftApplyError (e : goraft.ApplyError).

(** What a handler does to the outside, in order. *)
Inductive event : Type :=
| EvPropose (record : list byte)            (* [hs.raft.Apply] *)
| EvPost (url : string) (data : list byte)  (* [client.Do] of a POST *)
| EvLog (l : logline).

(** ** The handlers *)

(** One goroutine of [replicateToFollowers]: the push to [follower]. *)
Definition push_to (w : world) (filePath : string) (data : list byte)
    (follower : goraft.ClusterMember) : list event :=
  let url := "http://" +:+ goraft.HttpAddress follower +:+ "/replicate/" +:+ filePath in
  match peer w follower with
  | RequestError => [EvLog (LogRequestError follower)]
  | TransportError => [EvPost url data; EvLog (LogReplicateError follower)]
  | Responded status => [EvPost url data; EvLog (LogReplicated follower status)]
  end.

(** [replicateToFollowers]: one push per follower, joined by the wait group.
    The goroutines share nothing, and their events are listed in roster
    order.  The function returns nothing. *)
Definition replicateToFollowers (hs : httpServer) (w : world) (filePath : string)
    (data : list byte) : list event :=
  let followers := goraft.Followers (raft hs) in
  if decide (followers = []) then [EvLog LogNoFollowers]
  else flat_map (push_to w filePath data) followers.

#[global] Instance ClusterMember_eq_dec : EqDecision goraft.ClusterMember.
Proof. solve_decision. Defined.

Definition created_message (filePath : string) (n : Z) : string :=
  "File '" +:+ filePath +:+ "' created and replicated successfully ("
  +:+ pretty n +:+ " bytes)".

(** [createFileHandler]: the response, the node afterwards and the events. *)
Definition createFileHandler (hs : httpServer) (w : world) (r : request)
  : outcome (response * httpServer * list event) :=
  if negb (bool_decide (Method r = MethodPost)) then
    mret (http_Error "Method Not Allowed" StatusMethodNotAllowed, hs, [])
  else if negb (goraft.IsLeader (raft hs)) then
    mret (http_Error "Not the leader - try another node" StatusServiceUnavailable, hs, [])
  else
    let filePath := strings_TrimPrefix (URL_Path r) "/upload/" in
    let name := filepath_Base filePath in
    match os_Create name (dataDir hs) with
    | None =>
        mret (http_Error "Failed to create local file" StatusInternalServerError, hs, [])
    | Some d1 =>
        let body := io_ReadAll (Body r) in
        let '(n, d2) := file_Write (room w) name 0 body d1 in
        let hs2 := {| raft := raft hs; stateMachine := stateMachine hs; dataDir := d2 |} in
        if (n <? length body)%nat then
          mret (http_Error "Failed to write file content" StatusInternalServerError, hs2, [])
        else
          let cmd := {| Kind := CreateFile; Path := filePath;
                        OldPath := ""; NewPath := ""; Size := Z.of_nat n |} in
          let record := encodeCommand cmd in
          a ← goraft.Apply (raft hs) (clock w) (stateMachine hs) record;
          match a with
          | (sm, Some e) =>
              mret (http_Error "Failed to replicate file metadata" StatusInternalServerError,
                    {| raft := raft hs; stateMachine := sm; dataDir := d2 |},
                    [EvPropose record; EvLog (LogRaftApplyError e)])
          | (sm, None) =>
              let pushes := replicateToFollowers hs w filePath body in
              mret ({| StatusCode := StatusCreated;
                       Content := list_byte_of_string (created_message filePath (Z.of_nat n)) |},
                    {| raft := raft hs; stateMachine := sm; dataDir := d2 |},
                    EvPropose record :: pushes)
          end
    end.

(** [getFileHandler]: it changes nothing on the node. *)
Definition getFileHandler (hs : httpServer) (r : request) : response :=
  let filePath := strings_TrimPrefix (URL_Path r) "/upload/" in
  match files (stateMachine hs) !! filePath with
  | None => http_Error "File not found" StatusNotFound
  | Some _ =>
      let name := filepath_Base filePath in
      match dataDir hs !! name with
      | None => http_Error "File content not found on this node" StatusNotFound
      | Some NoAccess => http_Error "Could not open file on this node" StatusInternalServerError
      | Some Directory => {| StatusCode := StatusOK; Content := [] |}
      | Some (Regular data) => {| StatusCode := StatusOK; Content := data |}
      end
  end.

(** The two answers of [getFileHandler] that carry [http.StatusNotFound]:
    no metadata for the path, and metadata without local content. *)
Definition NotFound : response := http_Error "File not found" StatusNotFound.
Definition ContentUnavailableLocally : response :=
  http_Error "File content not found on this node" StatusNotFound.

(** [replicateFileHandler]: store a pushed body; the result of [io.Copy] is
    not looked at. *)
Definition replicateFileHandler (hs : httpServer) (w : world) (r : request)
  : response * httpServer :=
  let filePath := strings_TrimPrefix (URL_Path r) "/replicate/" in
  let name := filepath_Base filePath in
  match os_Create name (dataDir hs) with
  | None =>
      (http_Error "Failed to create local file for replication" StatusInternalServerError, hs)
  | Some d1 =>
      ({| StatusCode := StatusOK;
          Content := list_byte_of_string "File replicated successfully" |},
       {| raft := raft hs; stateMachine := stateMachine hs;
          dataDir := io_Copy_file (room w) name 0 (Body r) d1 |})
  end.

(** [uploadHandler]: GET fetches, POST creates. *)
Definition uploadHandler (hs : httpServer) (w : world) (r : request)
  : outcome (response * httpServer * list event) :=
  if bool_decide (Method r = MethodGet) then mret (getFileHandler hs r, hs, [])
  else if bool_decide (Method r = MethodPost) then createFileHandler hs w r
  else mret (http_Error "Method Not Allowed" StatusMethodNotAllowed, hs, []).

(** A request a Go program can hold: the lengths of its path and of its body
    are [int]s. *)
Definition request_ok (r : request) : Prop :=
  strlen (URL_Path r) < Int.two63 /\ len (io_ReadAll (Body r)) < Int.two63.

(** ** What a concurrent request can observe of a content write

    Each call into the operating system is one step; between two steps of a
    handler another request may run.  These are the states of the data
    directory a write of [name] passes through, first to last. *)

Fixpoint io_Copy_states (room : nat) (name : string) (off : nat)
    (chunks : list (list byte)) (d : gmap string inode) : list (gmap string inode) :=
  match chunks with
  | [] => []
  | c :: rest =>
      let '(n, d') := file_Write room name off c d in
      d' :: (if (n <? length c)%nat then []
             else io_Copy_states (room - n) name (off + n) rest d')
  end.

(** [createFileHandler], lines 170-180: [os.Create], then one [Write] of the
    whole body. *)
Definition createFile_states (room : nat) (name : string) (body : list byte)
    (d : gmap string inode) : list (gmap string inode) :=
  d :: match os_Create name d with
       | None => []
       | Some d1 => [d1; (file_Write room name 0 body d1).2]
       end.

(** [replicateFileHandler]: [os.Create], then the writes of [io.Copy]. *)
Definition replicateFile_states (room : nat) (name : string) (chunks : list (list byte))
    (d : gmap string inode) : list (gmap string inode) :=
  d :: match os_Create name d with
       | None => []
       | Some d1 => d1 :: io_Copy_states room name 0 chunks d1
       end.

(** A fetch of [path] served when the data directory is in state [d]. *)
Definition fetch_at (hs : httpServer) (path : string) (d : gmap string inode) : response :=
  getFileHandler {| raft := raft hs; stateMachine := stateMachine hs; dataDir := d |}
                 {| Method := MethodGet; URL_Path := "/upload/" +:+ path; Body := [] |}.

(** ** A cluster of three, for the examples *)

Module Example.

(** [n1] is the node under study; [n2], [n3] and [n4] are its peers. *)
Definition n1 : goraft.ClusterMember := goraft.mkMember 1 "localhost:3030" "localhost:8081".
Definition n2 : goraft.ClusterMember := goraft.mkMember 2 "localhost:3031" "localhost:8082".
Definition n3 : goraft.ClusterMember := goraft.mkMember 3 "localhost:3032" "localhost:8083".
Definition n4 : goraft.ClusterMember := goraft.mkMember 4 "localhost:3033" "localhost:8084".

(** A leader with three followers whose engine commits what is proposed. *)
Definition leader : goraft.Server :=
  goraft.mkServer true [n2; n3; n4] (fun _ => None).

(** A node that believes it leads while the engine cannot reach a quorum. *)
Definition isolated : goraft.Server :=
  goraft.mkServer true [n2; n3; n4] (fun _ => Some goraft.ReplicationTimeout).

(** A follower. *)
Definition follower : goraft.Server :=
  goraft.mkServer false [] (fun _ => Some goraft.NotLeader).

Definition node (raft : goraft.Server) : httpServer :=
  {| raft := raft; stateMachine := NewDFSStateMachine; dataDir := ∅ |}.

(** Peer [n3] is unreachable, the others answer 200. *)
Definition one_down : world :=
  {| clock := 7; room := 4096;
     peer := fun m => if decide (m = n3) then TransportError else Responded StatusOK |}.

Definition all_up : world :=
  {| clock := 7; room := 4096; peer := fun _ => Responded StatusOK |}.

Definition hello : list byte := list_byte_of_string "hello".

Definition upload : request :=
  {| Method := MethodPost; URL_Path := "/upload/docs/f.txt";
     Body := [list_byte_of_string "he"; list_byte_of_string "llo"] |}.

End Example.

(** ** Listing

    [listFilesHandler] ranges over the [sync.Map] and hands the collected
    slice to the JSON encoder.  The slice is what is modelled; the order in
    which [Range] visits the entries is not fixed by [sync.Map], and here it
    is the order of [map_to_list]. *)
Definition listFilesHandler (hs : httpServer) : list File :=
  (map_to_list (files (stateMachine hs))).*2.

(** ** The command line

    [log.Fatalf] ends the process: [Fatal]. *)
Inductive fatal : Type :=
| ExpectedIntegerForNode (got : string)
| InvalidClusterFormat
| ExpectedIntegerForClusterID (got : string)
| MissingNode
| MissingHttp
| MissingCluster.

Inductive startup (A : Type) : Type :=
| Started (a : A)
| Fatal (f : fatal).
Arguments Started {A} a.
Arguments Fatal {A} f.

#[global] Instance startup_ret : MRet startup := fun A a => Started a.
#[global] Instance startup_bind : MBind startup := fun A B f m =>
  match m with
  | Started a => f a
  | Fatal e => Fatal e
  end.

Definition is_digit (c : ascii) : bool :=
  (48 <=? nat_of_ascii c)%nat && (nat_of_ascii c <=? 57)%nat.

(** The value of a string of decimal digits read after [acc]; [None] at the
    first character that is not a digit. *)
Fixpoint digits_value (acc : Z) (s : string) : option Z :=
  match s with
  | EmptyString => Some acc
  | String c s' =>
      if is_digit c
      then digits_value (acc * 10 + (Z.of_nat (nat_of_ascii c) - 48)) s'
      else None
  end.

(** [strconv.ParseUint(s, 10, 64)]: one or more digits, below 2^64; [None]
    is any error. *)
Definition strconv_ParseUint (s : string) : option Z :=
  if decide (s = "") then None
  else match digits_value 0 s with
       | Some v => if v <? Int.two64 then Some v else None
       | None => None
       end.

(** [strconv.Atoi(s)] on a 64-bit target: an optional sign, one or more
    digits, within the range of [int]; [None] is any error. *)
Definition strconv_Atoi (s : string) : option Z :=
  match s with
  | EmptyString => None
  | String c rest =>
      let neg := bool_decide (c = "-"%char) in
      let digits := if neg || bool_decide (c = "+"%char) then rest else s in
      if decide (digits = "") then None
      else match digits_value 0 digits with
           | Some v =>
               if neg then (if v <=? Int.two63 then Some (- v) else None)
               else (if v <? Int.two63 then Some v else None)
           | None => None
           end
  end.

(** [strings.Split(s, sep)] for a one-character [sep]: the pieces between
    the separators, one more than there are separators. *)
Fixpoint strings_Split (sep : ascii) (s : string) : list string :=
  match s with
  | EmptyString => [EmptyString]
  | String c s' =>
      if decide (c = sep) then EmptyString :: strings_Split sep s'
      else match strings_Split sep s' with
           | piece :: pieces => String c piece :: pieces
           | [] => [String c EmptyString]
           end
  end.

Record config : Type := mkConfig {
  cluster : list goraft.ClusterMember;
  index : Z;       (* int *)
  http : string
}.

(** One turn of the inner loop of [getConfig]: an entry of [--cluster]. *)
Definition cluster_entry (part : string) : startup goraft.ClusterMember :=
  match strings_Split ","%char part with
  | [id; address; httpAddress] =>
      match strconv_ParseUint id with
      | Some v => Started (goraft.mkMember v address httpAddress)
      | None => Fatal (ExpectedIntegerForClusterID id)
      end
  | _ => Fatal InvalidClusterFormat
  end.

Fixpoint cluster_entries (parts : list string) (acc : list goraft.ClusterMember)
  : startup (list goraft.ClusterMember) :=
  match parts with
  | [] => Started acc
  | part :: rest =>
      m ← cluster_entry part;
      cluster_entries rest (acc ++ [m])
  end.

(** The loop of [getConfig] from position [i], with [args] what is left of
    [os.Args] from there: it runs while [i < len(os.Args)-1], so while two
    arguments are left; a flag takes the next argument with it. *)
Fixpoint getConfig_loop (args : list string) (cfg : config) (node : string)
  : startup (config * string) :=
  match args with
  | arg :: tl =>
      match tl with
      | value :: rest =>
          if decide (arg = "--node") then
            match strconv_Atoi value with
            | Some n =>
                getConfig_loop rest
                  {| cluster := cluster cfg; index := n; http := http cfg |} value
            | None => Fatal (ExpectedIntegerForNode value)
            end
          else if decide (arg = "--http") then
            getConfig_loop rest
              {| cluster := cluster cfg; index := index cfg; http := value |} node
          else if decide (arg = "--cluster") then
            ms ← cluster_entries (strings_Split ";"%char value) (cluster cfg);
            getConfig_loop rest
              {| cluster := ms; index := index cfg; http := http cfg |} node
          else getConfig_loop tl cfg node
      | [] => Started (cfg, node)
      end
  | [] => Started (cfg, node)
  end.

(** [getConfig], with [args] the contents of [os.Args]. *)
Definition getConfig (args : list string) : startup config :=
  r ← getConfig_loop args {| cluster := []; index := 0; http := "" |} "";
  let '(cfg, node) := r in
  if decide (node = "") then Fatal MissingNode
  else if decide (http cfg = "") then Fatal MissingHttp
  else if decide (cluster cfg = []) then Fatal MissingCluster
  else Started cfg.

(** Every record of the table sits under its own name. *)
Definition names_are_keys (s : DFSStateMachine) : Prop :=
  forall (k : string) (f : File), files s !! k = Some f -> File.Name f = k.

(** * Proofs *)

(** ** Bytes and little-endian words *)

Section Words.
Import Int LittleEndian.

Lemma Z_of_byte_of_Z (v : Z) : Z_of_byte (byte_of_Z v) = Z.land v 255.
Proof.
  unfold Z_of_byte, byte_of_Z.
  assert (Hr : 0 <= Z.land v 255 < 256).
  { change 255 with (Z.ones 8). rewrite Z.land_ones by lia.
    apply Z.mod_pos_bound. lia. }
  destruct (Byte.of_N (Z.to_N (Z.land v 255))) as [b|] eqn:E; simpl.
  - apply Byte.to_of_N in E. rewrite E. lia.
  - apply Byte.of_N_None_iff in E. lia.
Qed.

Lemma testbit_255 (i : Z) : Z.testbit 255 i = (0 <=? i) && (i <? 8).
Proof.
  change 255 with (Z.ones 8).
  destruct (Z.leb_spec 0 i); simpl.
  - destruct (Z.ltb_spec i 8).
    + apply Z.ones_spec_low. lia.
    + apply Z.ones_spec_high. lia.
  - apply Z.testbit_neg_r. lia.
Qed.

(** The bits of the byte stored at lane [k]. *)
Lemma lane_bit (v k n : Z) :
  0 <= k -> 0 <= n ->
  Z.testbit (Z.shiftl (Z.land (Z.shiftr v k) 255) k) n
  = Z.testbit v n && (k <=? n) && (n <? k + 8).
Proof.
  intros Hk Hn. rewrite Z.shiftl_spec by lia.
  destruct (Z.leb_spec k n).
  - rewrite Z.land_spec, Z.shiftr_spec, testbit_255 by lia.
    replace (n - k + k) with n by lia.
    destruct (Z.leb_spec 0 (n - k)); [|lia].
    destruct (Z.ltb_spec (n - k) 8), (Z.ltb_spec n (k + 8)); try lia;
      destruct (Z.testbit v n); reflexivity.
  - rewrite Z.testbit_neg_r by lia. destruct (Z.testbit v n); reflexivity.
Qed.

(** Settle every comparison of the goal whose outcome [lia] knows. *)
Ltac settle_cmp :=
  repeat match goal with
         | |- context [?a <=? ?b] =>
             first [ rewrite (proj2 (Z.leb_le a b)) by lia
                   | rewrite (proj2 (Z.leb_gt a b)) by lia ]
         | |- context [?a <? ?b] =>
             first [ rewrite (proj2 (Z.ltb_lt a b)) by lia
                   | rewrite (proj2 (Z.ltb_ge a b)) by lia ]
         end.

Lemma Uint64_PutUint64 (v : Z) : is_uint64 v -> Uint64 (PutUint64 v) = v.
Proof.
  intros [H0 H64]. unfold Uint64, PutUint64. rewrite !Z_of_byte_of_Z.
  apply Z.bits_inj'. intros n Hn.
  rewrite !Z.lor_spec, !lane_bit by lia.
  rewrite Z.land_spec, testbit_255.
  assert (Hhigh : 64 <= n -> Z.testbit v n = false).
  { intros Hge. rewrite <- (Z.mod_small v (2 ^ 64)) by (split; assumption).
    apply Z.mod_pow2_bits_high. lia. }
  assert (Hlane : n < 8 \/ 8 <= n < 16 \/ 16 <= n < 24 \/ 24 <= n < 32 \/
                  32 <= n < 40 \/ 40 <= n < 48 \/ 48 <= n < 56 \/
                  56 <= n < 64 \/ 64 <= n) by lia.
  destruct Hlane as [H|[H|[H|[H|[H|[H|[H|[H|H]]]]]]]];
    try (rewrite (Hhigh H)); settle_cmp;
    destruct (Z.testbit v n); reflexivity.
Qed.

Lemma length_PutUint64 (v : Z) : length (PutUint64 v) = 8%nat.
Proof. reflexivity. Qed.

Lemma uint64_small (x : Z) : is_uint64 x -> uint64 x = x.
Proof. intros H. unfold uint64. apply Z.mod_small. exact H. Qed.

Lemma is_uint64_uint64 (x : Z) : is_uint64 (uint64 x).
Proof. unfold is_uint64, uint64. apply Z.mod_pos_bound. reflexivity. Qed.

(** [int64(uint64(x)) = x] over the whole [int64] range. *)
Lemma int64_uint64 (x : Z) : is_int64 x -> int64 (uint64 x) = x.
Proof.
  intros [Hlo Hhi]. unfold int64, uint64, two64, two63 in *. cbv zeta.
  rewrite Z.mod_mod by lia.
  destruct (Z_lt_dec x 0) as [Hneg|Hpos].
  - rewrite <- (Z.mod_add x 1 (2 ^ 64)) by lia.
    rewrite (Z.mod_small (x + 1 * 2 ^ 64)) by lia.
    destruct (Z.ltb_spec (x + 1 * 2 ^ 64) (2 ^ 63)); lia.
  - rewrite Z.mod_small by lia.
    destruct (Z.ltb_spec x (2 ^ 63)); lia.
Qed.

End Words.

(** ** The codec *)

Section Codec.
Import Int LittleEndian.

Lemma length_list_byte_of_string (s : string) :
  length (list_byte_of_string s) = String.length s.
Proof.
  induction s as [|a s IH]; [reflexivity|].
  change (list_byte_of_string (String a s))
    with (byte_of_ascii a :: list_byte_of_string s).
  simpl. f_equal. exact IH.
Qed.

Lemma len_list_byte_of_string (s : string) : len (list_byte_of_string s) = strlen s.
Proof. unfold len, strlen. f_equal. apply length_list_byte_of_string. Qed.

(** [Next] of exactly the bytes in front. *)
Lemma Next_app (l rest : list byte) :
  Buf.Next (len l) (l ++ rest) = Returned (l, rest).
Proof.
  unfold Buf.Next, len. rewrite length_app.
  destruct (Z.ltb_spec (Z.of_nat (length l + length rest)) (Z.of_nat (length l))); [lia|].
  destruct (Z.ltb_spec (Z.of_nat (length l)) 0); [lia|].
  rewrite Nat2Z.id, take_app_length, drop_app_length. reflexivity.
Qed.

Lemma Next_1_cons (b : byte) (rest : list byte) :
  Buf.Next 1 (b :: rest) = Returned ([b], rest).
Proof.
  unfold Buf.Next, len. simpl length.
  destruct (Z.ltb_spec (Z.of_nat (S (length rest))) 1); [lia|].
  reflexivity.
Qed.

(** [binary.Read] of a word [PutUint64] wrote. *)
Lemma Read_PutUint64 (v cur : Z) (rest : list byte) :
  is_uint64 v ->
  Buf.Read_uint64 cur (PutUint64 v ++ rest) = Returned (v, rest).
Proof.
  intros Hv. unfold Buf.Read_uint64, len. rewrite length_app, length_PutUint64.
  destruct (Z.leb_spec 8 (Z.of_nat (8 + length rest))); [|lia].
  change 8%nat with (length (PutUint64 v)).
  rewrite take_app_length, drop_app_length, Uint64_PutUint64 by exact Hv.
  reflexivity.
Qed.

Lemma is_int64_strlen (p : string) : strlen p < two63 -> is_int64 (strlen p).
Proof. unfold is_int64, strlen, two63. lia. Qed.

(** The length [decodeCommand] hands to [Next] for a string of the command. *)
Lemma declared_length (p : string) :
  strlen p < two63 -> int64 (uint64 (strlen p)) = len (list_byte_of_string p).
Proof.
  intros Hp. rewrite int64_uint64 by (apply is_int64_strlen; exact Hp).
  symmetry. apply len_list_byte_of_string.
Qed.

(** The decoder on a record laid out field by field, whatever follows it. *)
Lemma decode_layout (k : commandKind) (p o n : string) (sz : Z) (s : list byte) :
  strlen p < two63 -> strlen o < two63 -> strlen n < two63 -> is_int64 sz ->
  decodeCommand
    (k :: PutUint64 (uint64 (strlen p)) ++ list_byte_of_string p
       ++ PutUint64 (uint64 (strlen o)) ++ list_byte_of_string o
       ++ PutUint64 (uint64 (strlen n)) ++ list_byte_of_string n
       ++ PutUint64 (uint64 sz) ++ s)
  = Returned {| Kind := k; Path := p; OldPath := o; NewPath := n; Size := sz |}.
Proof.
  intros HP HO HN HS.
  unfold decodeCommand, Buf.run, mbind, mret, Buffer_bind, Buffer_ret.
  rewrite Next_1_cons. unfold Buf.first.
  rewrite Read_PutUint64, declared_length, Next_app by (apply is_uint64_uint64 || assumption).
  rewrite Read_PutUint64, declared_length, Next_app by (apply is_uint64_uint64 || assumption).
  rewrite Read_PutUint64, declared_length, Next_app by (apply is_uint64_uint64 || assumption).
  rewrite Read_PutUint64 by apply is_uint64_uint64.
  rewrite !string_of_list_byte_of_string, int64_uint64 by exact HS.
  reflexivity.
Qed.

(** Decoding an encoding followed by any bytes gives the command back. *)
Lemma decode_encode_app (c : command) (s : list byte) :
  command_ok c -> decodeCommand (encodeCommand c ++ s) = Returned c.
Proof.
  intros [HP HO HN HS]. destruct c as [k p o n sz].
  unfold encodeCommand. repeat rewrite <- app_assoc.
  apply (decode_layout k p o n sz s); assumption.
Qed.

Lemma decode_encode (c : command) :
  command_ok c -> decodeCommand (encodeCommand c) = Returned c.
Proof.
  intros Hc. rewrite <- (app_nil_r (encodeCommand c)).
  apply decode_encode_app. exact Hc.
Qed.

(** *** Input that stops short *)

Lemma Read_uint64_short (cur : Z) (buf : list byte) :
  (length buf < 8)%nat -> Buf.Read_uint64 cur buf = Returned (cur, []).
Proof.
  intros H. unfold Buf.Read_uint64, len.
  destruct (Z.leb_spec 8 (Z.of_nat (length buf))); [lia|reflexivity].
Qed.

Lemma Read_uint64_returns (cur : Z) (buf : list byte) :
  exists v buf', Buf.Read_uint64 cur buf = Returned (v, buf').
Proof.
  unfold Buf.Read_uint64. destruct (8 <=? len buf); eauto.
Qed.

(** [Next] asked for more than is left hands out all of it. *)
Lemma Next_all (n : Z) (buf : list byte) :
  len buf <= n -> Buf.Next n buf = Returned (buf, []).
Proof.
  intros H. unfold Buf.Next, len in *.
  destruct (Z.ltb_spec (Z.of_nat (length buf)) n) as [Hlt|Hge].
  - destruct (Z.ltb_spec (Z.of_nat (length buf)) 0); [lia|].
    rewrite Nat2Z.id, firstn_all, drop_all. reflexivity.
  - assert (n = Z.of_nat (length buf)) as -> by lia.
    destruct (Z.ltb_spec (Z.of_nat (length buf)) 0); [lia|].
    rewrite Nat2Z.id, firstn_all, drop_all. reflexivity.
Qed.

Lemma int64_small (n : Z) : 0 <= n < two63 -> int64 n = n.
Proof.
  intros H. rewrite <- (uint64_small n) at 1.
  - apply int64_uint64. unfold is_int64, two63 in *. lia.
  - unfold is_uint64, two64, two63 in *. lia.
Qed.

(** A declared [Path] length beyond what is left: the decoder keeps what is
    left as [Path] and finds nothing for the other fields. *)
Lemma decode_overlong_path (tag : commandKind) (n : Z) (rest : list byte) :
  len rest < n < two63 ->
  decodeCommand (tag :: PutUint64 n ++ rest)
  = Returned {| Kind := tag; Path := string_of_list_byte rest;
                OldPath := ""; NewPath := ""; Size := 0 |}.
Proof.
  intros [Hlen Hn].
  assert (H0 : 0 <= n) by (unfold len in Hlen; lia).
  unfold decodeCommand, Buf.run, mbind, mret, Buffer_bind, Buffer_ret.
  rewrite Next_1_cons. unfold Buf.first.
  rewrite Read_PutUint64 by (unfold is_uint64, two64, two63 in *; lia).
  rewrite int64_small by lia.
  rewrite Next_all by lia.
  reflexivity.
Qed.

(** One length-prefixed string read from an input cut after [j] bytes, with
    [K] what the decoder does next. *)
Lemma read_string_cut {A} (p : string) (rest : list byte) (j : nat)
    (K : list byte -> Buffer A) :
  strlen p < two63 ->
  (n ← Buf.Read_uint64 0; b ← Buf.Next (int64 n); K b)
    (take j (PutUint64 (uint64 (strlen p)) ++ list_byte_of_string p ++ rest))
  = if (j <? 8 + String.length p)%nat
    then K (take (j - 8) (list_byte_of_string p)) []
    else K (list_byte_of_string p) (take (j - 8 - String.length p) rest).
Proof.
  intros Hp. unfold mbind, Buffer_bind.
  pose proof (length_list_byte_of_string p) as Lp.
  destruct (Nat.ltb_spec j 8) as [Hj|Hj].
  - rewrite Read_uint64_short.
    2:{ rewrite length_take, length_app, length_PutUint64. lia. }
    destruct (Nat.ltb_spec j (8 + String.length p)); [|lia].
    replace (j - 8)%nat with 0%nat by lia. reflexivity.
  - rewrite take_app_ge by (rewrite length_PutUint64; exact Hj).
    rewrite length_PutUint64.
    rewrite Read_PutUint64 by apply is_uint64_uint64.
    rewrite declared_length by exact Hp.
    destruct (Nat.ltb_spec j (8 + String.length p)) as [Hlt|Hge].
    + rewrite take_app_le by lia.
      rewrite Next_all; [reflexivity|].
      unfold len. rewrite length_take. lia.
    + rewrite take_app_ge by lia.
      rewrite Next_app. rewrite Lp.
      replace (j - 8 - String.length p)%nat with (j - 8 - String.length p)%nat by lia.
      reflexivity.
Qed.

(** An encoding cut anywhere after its tag byte still decodes, to a command
    of the same kind. *)
Lemma decode_cut (c : command) (j : nat) :
  command_ok c ->
  exists c', decodeCommand (take (S j) (encodeCommand c)) = Returned c'
             /\ Kind c' = Kind c.
Proof.
  intros [HP HO HN HS]. destruct c as [k p o n sz].
  unfold encodeCommand. cbn [Kind Path OldPath NewPath Size] in *.
  change (take (S j) ([k] ++ ?l)) with (k :: take j l).
  unfold decodeCommand, Buf.run.
  unfold mbind at 1. unfold Buffer_bind at 1. rewrite Next_1_cons.
  unfold mbind at 1. unfold Buffer_bind at 1. unfold Buf.first.
  rewrite read_string_cut by exact HP.
  destruct (j <? 8 + String.length p)%nat.
  { eexists. split; reflexivity. }
  rewrite read_string_cut by exact HO.
  destruct (j - 8 - String.length p <? 8 + String.length o)%nat.
  { eexists. split; reflexivity. }
  rewrite read_string_cut by exact HN.
  destruct (j - 8 - String.length p - 8 - String.length o <? 8 + String.length n)%nat.
  { eexists. split; reflexivity. }
  unfold mbind, mret, Buffer_bind, Buffer_ret.
  destruct (Read_uint64_returns 0
    (take (j - 8 - String.length p - 8 - String.length o - 8 - String.length n)
          (PutUint64 (uint64 sz)))) as (v & b' & ->).
  eexists. split; reflexivity.
Qed.

End Codec.

(** ** Claims about the codec *)

Section CodecClaims.
Import Int LittleEndian.

(** C1. Codec round trip: decoding the encoding of a command gives back a
    command equal to it in every field.  This holds for every command a
    program can build: any kind (the three variants among them), strings of
    any length a Go string can have (the empty string included), and every
    [int64] size (every nonnegative size included). *)
Theorem codec_round_trip (c : command) :
  command_ok c -> decodeCommand (encodeCommand c) = Returned c.
Proof. exact (decode_encode c). Qed.

Lemma command_ok_intro (k : commandKind) (p o n : string) (sz : Z) :
  strlen p < two63 -> strlen o < two63 -> strlen n < two63 ->
  - two63 <= sz < two63 ->
  command_ok {| Kind := k; Path := p; OldPath := o; NewPath := n; Size := sz |}.
Proof. intros; split; assumption. Defined.

Lemma codec_round_trip_witness :
  let c := {| Kind := RenameFile; Path := ""; OldPath := "old/name";
              NewPath := "new"; Size := 9223372036854775807 |} in
  command_ok c /\ decodeCommand (encodeCommand c) = Returned c.
Proof.
  intros c.
  assert (Hc : command_ok c).
  { apply command_ok_intro; vm_compute; try reflexivity; split; [discriminate | reflexivity]. }
  split; [exact Hc | exact (codec_round_trip c Hc)].
Defined.

(** C10. The decoder ignores what follows a record: an encoding with any
    bytes appended decodes to the encoded command, the same result as for the
    encoding alone, so trailing bytes are not detected. *)
Theorem decode_ignores_trailing_bytes (c : command) (s : list byte) :
  command_ok c ->
  decodeCommand (encodeCommand c ++ s) = Returned c
  /\ decodeCommand (encodeCommand c ++ s) = decodeCommand (encodeCommand c).
Proof.
  intros Hc. split.
  - apply decode_encode_app. exact Hc.
  - rewrite decode_encode_app by exact Hc.
    rewrite <- (app_nil_r (encodeCommand c)).
    symmetry. apply decode_encode_app. exact Hc.
Qed.

Lemma decode_ignores_trailing_bytes_witness :
  let c := {| Kind := CreateFile; Path := "a.txt"; OldPath := "";
              NewPath := ""; Size := 5 |} in
  let s := [xff; x00; "x"%byte] in
  command_ok c
  /\ decodeCommand (encodeCommand c ++ s) = Returned c
  /\ decodeCommand (encodeCommand c ++ s) = decodeCommand (encodeCommand c).
Proof.
  intros c s.
  assert (Hc : command_ok c).
  { apply command_ok_intro; vm_compute; try reflexivity; split; [discriminate | reflexivity]. }
  split; [exact Hc | exact (decode_ignores_trailing_bytes c s Hc)].
Defined.

End CodecClaims.

(** ** The state machine *)

Section StateMachine.

Lemma Apply_CreateFile (now : Time) (s : DFSStateMachine) (c : command) :
  command_ok c -> Kind c = CreateFile ->
  Apply now s (encodeCommand c)
  = Returned ({| files := <[Path c := File.mk (Path c) (Size c) now]> (files s) |}, None).
Proof.
  intros Hc Hk. unfold Apply. rewrite decode_encode by exact Hc.
  unfold mbind, outcome_bind. rewrite decide_True by exact Hk. reflexivity.
Qed.

Lemma Apply_DeleteFile (now : Time) (s : DFSStateMachine) (c : command) :
  command_ok c -> Kind c = DeleteFile ->
  Apply now s (encodeCommand c)
  = Returned ({| files := delete (Path c) (files s) |}, None).
Proof.
  intros Hc Hk. unfold Apply. rewrite decode_encode by exact Hc.
  unfold mbind, outcome_bind.
  rewrite decide_False by (rewrite Hk; discriminate).
  rewrite decide_True by exact Hk. reflexivity.
Qed.

Lemma Apply_RenameFile (now : Time) (s : DFSStateMachine) (c : command) :
  command_ok c -> Kind c = RenameFile ->
  Apply now s (encodeCommand c)
  = Returned ({| files := <[NewPath c := File.mk (NewPath c) (Size c) now]>
                            (delete (OldPath c) (files s)) |}, None).
Proof.
  intros Hc Hk. unfold Apply. rewrite decode_encode by exact Hc.
  unfold mbind, outcome_bind.
  rewrite decide_False by (rewrite Hk; discriminate).
  rewrite decide_False by (rewrite Hk; discriminate).
  rewrite decide_True by exact Hk. reflexivity.
Qed.

Lemma Apply_unrecognized (now : Time) (s : DFSStateMachine) (c : command) :
  command_ok c -> ~ recognized (Kind c) ->
  Apply now s (encodeCommand c) = Returned (s, Some (UnknownCommand (Kind c))).
Proof.
  intros Hc Hk. unfold Apply. rewrite decode_encode by exact Hc.
  unfold mbind, outcome_bind, recognized in *.
  rewrite !decide_False by tauto. reflexivity.
Qed.

End StateMachine.

(** ** Claims about malformed input and about [Apply] *)

Section ApplyClaims.
Import Int LittleEndian.

(** C2, as stated, fails.  The decoder has no error result.  On the empty
    input it panics at [buf.Next(1)[0]]; a tag outside the three variants is
    returned as the kind of the command; a declared length of five with one
    byte left gives a one-byte [Path]. *)
Lemma decode_accepts_malformed :
  decodeCommand [] = Panic IndexOutOfRange
  /\ (~ recognized x07
      /\ decodeCommand (x07 :: replicate 32 x00)
         = Returned {| Kind := x07; Path := ""; OldPath := ""; NewPath := ""; Size := 0 |})
  /\ decodeCommand [x00; x05; x00; x00; x00; x00; x00; x00; x00; "a"%byte]
     = Returned {| Kind := CreateFile; Path := "a"; OldPath := ""; NewPath := ""; Size := 0 |}.
Proof.
  split; [reflexivity|]. split; [split|].
  - intros [H|[H|H]]; discriminate H.
  - vm_compute. reflexivity.
  - vm_compute. reflexivity.
Qed.

(** C2, amended.  [decodeCommand] returns a command and never an error.
    When the declared [Path] length (below 2^63) exceeds the bytes left, the
    bytes left become [Path] and the later fields are empty and zero.  An
    encoding cut anywhere after its tag byte decodes, without a panic, to a
    command of the same kind.  A tag outside the three variants is decoded
    as it is, and it is [Apply] that rejects it, with "unknown command" and
    the table unchanged. *)
Theorem decode_returns_on_malformed (tag : commandKind) (n : Z) (rest : list byte)
    (c : command) (j : nat) (now : Time) (s : DFSStateMachine) :
  len rest < n < two63 ->
  command_ok c ->
  decodeCommand (tag :: PutUint64 n ++ rest)
    = Returned {| Kind := tag; Path := string_of_list_byte rest;
                  OldPath := ""; NewPath := ""; Size := 0 |}
  /\ (exists c', decodeCommand (take (S j) (encodeCommand c)) = Returned c'
                 /\ Kind c' = Kind c)
  /\ (~ recognized (Kind c) ->
      decodeCommand (encodeCommand c) = Returned c
      /\ Apply now s (encodeCommand c) = Returned (s, Some (UnknownCommand (Kind c)))).
Proof.
  intros Hn Hc. split; [|split].
  - apply decode_overlong_path. exact Hn.
  - apply decode_cut. exact Hc.
  - intros Hk. split.
    + apply decode_encode. exact Hc.
    + apply Apply_unrecognized; assumption.
Qed.

Lemma decode_returns_on_malformed_witness :
  let c := {| Kind := x07; Path := "p"; OldPath := ""; NewPath := "q"; Size := 3 |} in
  let s := NewDFSStateMachine in
  (len ["a"%byte] < 5 < two63)
  /\ command_ok c
  /\ ~ recognized (Kind c)
  /\ decodeCommand (CreateFile :: PutUint64 5 ++ ["a"%byte])
     = Returned {| Kind := CreateFile; Path := "a"; OldPath := ""; NewPath := ""; Size := 0 |}
  /\ (exists c', decodeCommand (take 12 (encodeCommand c)) = Returned c' /\ Kind c' = x07)
  /\ Apply 1 s (encodeCommand c) = Returned (s, Some (UnknownCommand x07)).
Proof.
  intros c s.
  assert (Hn : len ["a"%byte] < 5 < two63) by (vm_compute; split; reflexivity).
  assert (Hc : command_ok c).
  { apply command_ok_intro; vm_compute; try reflexivity; split; [discriminate | reflexivity]. }
  assert (Hk : ~ recognized (Kind c)) by (intros [H|[H|H]]; discriminate H).
  destruct (decode_returns_on_malformed CreateFile 5 ["a"%byte] c 11 1 s Hn Hc)
    as (Ha & Hb & Hu).
  split; [exact Hn|]. split; [exact Hc|]. split; [exact Hk|].
  split; [exact Ha|]. split; [exact Hb|]. exact (proj2 (Hu Hk)).
Defined.

(** C6. Order matters to [Apply].  From the empty table, Create("x",5),
    Delete("x"), Create("x",9) applied in this order leave exactly one
    record, "x" with size 9.  The same three commands in the order
    Create("x",5), Create("x",9), Delete("x") leave the empty table, which is
    a different table.  Each result is a function of the sequence. *)
Theorem apply_is_order_sensitive (t1 t2 t3 : Time) :
  let create5 := encodeCommand {| Kind := CreateFile; Path := "x"; OldPath := "";
                                  NewPath := ""; Size := 5 |} in
  let delete := encodeCommand {| Kind := DeleteFile; Path := "x"; OldPath := "";
                                 NewPath := ""; Size := 0 |} in
  let create9 := encodeCommand {| Kind := CreateFile; Path := "x"; OldPath := "";
                                  NewPath := ""; Size := 9 |} in
  replay [(t1, create5); (t2, delete); (t3, create9)] NewDFSStateMachine
    = Returned ({| files := {[ "x"%string := File.mk "x" 9 t3 ]} |}, None)
  /\ Permutation [create5; delete; create9] [create5; create9; delete]
  /\ replay [(t1, create5); (t2, create9); (t3, delete)] NewDFSStateMachine
     = Returned ({| files := ∅ |}, None)
  /\ ({[ "x"%string := File.mk "x" 9 t3 ]} : gmap string File) ≠ ∅.
Proof.
  intros create5 delete create9. split; [|split; [|split]].
  - vm_compute. reflexivity.
  - apply perm_skip, perm_swap.
  - vm_compute. reflexivity.
  - apply insert_non_empty.
Qed.

(** C7, as stated, fails when the two paths are the same: renaming the
    absent path "a" to "a" leaves "a" present. *)
Lemma rename_onto_itself_leaves_path :
  let s := NewDFSStateMachine in
  let c := {| Kind := RenameFile; Path := ""; OldPath := "a"; NewPath := "a"; Size := 10 |} in
  files s !! "a"%string = None
  /\ exists s', Apply 0 s (encodeCommand c) = Returned (s', None)
                /\ files s' !! "a"%string = Some (File.mk "a" 10 0).
Proof.
  split; [reflexivity|]. eexists. split; vm_compute; reflexivity.
Qed.

(** C7, amended.  With [old_path] absent, applying
    RenameFile{old_path, new_path, size} succeeds without error; afterwards
    [new_path] is present with the given size and the time of application,
    every other path is as before, and [old_path] is absent provided it
    differs from [new_path]. *)
Theorem rename_of_absent (now : Time) (s : DFSStateMachine)
    (p old new : string) (size : Z) :
  let c := {| Kind := RenameFile; Path := p; OldPath := old; NewPath := new;
              Size := size |} in
  command_ok c ->
  files s !! old = None ->
  exists s', Apply now s (encodeCommand c) = Returned (s', None)
    /\ files s' !! new = Some (File.mk new size now)
    /\ (old <> new -> files s' !! old = None)
    /\ (forall q, q <> new -> files s' !! q = files s !! q).
Proof.
  intros c Hc Hold. eexists. split; [|split; [|split]].
  - apply Apply_RenameFile; [exact Hc | reflexivity].
  - cbn [files NewPath Size c]. apply lookup_insert_eq.
  - intros Hne. cbn [files NewPath OldPath Size c].
    rewrite lookup_insert_ne by congruence. apply lookup_delete_eq.
  - intros q Hq. cbn [files NewPath OldPath Size c].
    rewrite lookup_insert_ne by congruence.
    rewrite delete_id by exact Hold. reflexivity.
Qed.

Lemma rename_of_absent_witness :
  let s := {| files := {[ "c"%string := File.mk "c" 1 0 ]} |} in
  let c := {| Kind := RenameFile; Path := ""; OldPath := "a"; NewPath := "b"; Size := 10 |} in
  command_ok c
  /\ files s !! "a"%string = None
  /\ exists s', Apply 4 s (encodeCommand c) = Returned (s', None)
       /\ files s' !! "b"%string = Some (File.mk "b" 10 4)
       /\ files s' !! "a"%string = None.
Proof.
  intros s c.
  assert (Hc : command_ok c).
  { apply command_ok_intro; vm_compute; try reflexivity; split; [discriminate | reflexivity]. }
  assert (Hold : files s !! "a"%string = None) by reflexivity.
  destruct (rename_of_absent 4 s "" "a" "b" 10 Hc Hold) as (s' & Ha & Hb & Ho & _).
  split; [exact Hc|]. split; [exact Hold|].
  exists s'. split; [exact Ha|]. split; [exact Hb|].
  apply Ho. discriminate.
Defined.

End ApplyClaims.

(** ** The data directory and the handlers *)

Section Handlers.
Import Int.

Lemma length_substring (n m : nat) (s : string) :
  (String.length (substring n m s) <= String.length s)%nat.
Proof.
  revert n m. induction s as [|a s IH]; intros n m.
  - destruct n, m; simpl; lia.
  - destruct n as [|n]; [destruct m as [|m]|]; simpl.
    + lia.
    + specialize (IH 0%nat m). lia.
    + specialize (IH n m). lia.
Qed.

Lemma strlen_TrimPrefix (s prefix : string) :
  strlen (strings_TrimPrefix s prefix) <= strlen s.
Proof.
  unfold strings_TrimPrefix, strlen. destruct (String.prefix prefix s); [|lia].
  pose proof (length_substring (String.length prefix)
                (String.length s - String.length prefix) s). lia.
Qed.

Lemma substring_all (s : string) : substring 0 (String.length s) s = s.
Proof. induction s as [|a s IH]; simpl; [reflexivity|]. rewrite IH. reflexivity. Qed.

(** The path a client names under [/upload/] is the path the handlers use. *)
Lemma TrimPrefix_upload (path : string) :
  strings_TrimPrefix ("/upload/" +:+ path) "/upload/" = path.
Proof.
  unfold strings_TrimPrefix. simpl.
  change ("" +:+ path) with path.
  replace (String.prefix "" path) with true by (destruct path; reflexivity).
  rewrite Nat.sub_0_r. apply substring_all.
Qed.

(** Appending through a handle whose offset is the length of the file. *)
Lemma write_at_end (data old : list byte) :
  write_at (length old) data old = old ++ data.
Proof.
  unfold write_at. rewrite Nat.sub_diag. simpl. rewrite app_nil_r.
  rewrite firstn_all. rewrite drop_ge by lia. rewrite app_nil_r. reflexivity.
Qed.

Lemma os_Create_Some (name : string) (d d1 : gmap string inode) :
  os_Create name d = Some d1 -> d1 = <[name := Regular []]> d.
Proof.
  unfold os_Create. destruct (d !! name) as [[| |]|]; congruence.
Qed.

(** A write the disk has room for, at the end of the file. *)
Lemma file_Write_end (room : nat) (name : string) (b old : list byte)
    (d : gmap string inode) :
  (length b <= room)%nat ->
  file_Write room name (length old) b (<[name := Regular old]> d)
  = (length b, <[name := Regular (old ++ b)]> d).
Proof.
  intros Hroom. unfold file_Write.
  rewrite Nat.min_l by exact Hroom.
  rewrite lookup_insert_eq, firstn_all, write_at_end, insert_insert_eq.
  reflexivity.
Qed.

(** [os.Create] and then one [Write] of the body. *)
Lemma create_then_write (room : nat) (name : string) (body : list byte)
    (d d1 : gmap string inode) :
  os_Create name d = Some d1 -> (length body <= room)%nat ->
  file_Write room name 0 body d1 = (length body, <[name := Regular body]> d).
Proof.
  intros Hc Hroom. rewrite (os_Create_Some _ _ _ Hc).
  apply (file_Write_end room name body [] d Hroom).
Qed.

(** The record the handler proposes. *)
Lemma proposed_command_ok (r : request) (prefix : string) :
  request_ok r ->
  command_ok {| Kind := CreateFile; Path := strings_TrimPrefix (URL_Path r) prefix;
                OldPath := ""; NewPath := "";
                Size := Z.of_nat (length (io_ReadAll (Body r))) |}.
Proof.
  intros [Hp Hb]. pose proof (strlen_TrimPrefix (URL_Path r) prefix) as Ht.
  unfold len in Hb. apply command_ok_intro.
  - lia.
  - reflexivity.
  - reflexivity.
  - unfold two63 in *. lia.
Qed.

(** [createFileHandler] on the leader, once the body is stored: what it
    answers is decided by the engine alone. *)
Lemma createFileHandler_after_write (hs : httpServer) (w : world) (r : request) :
  let filePath := strings_TrimPrefix (URL_Path r) "/upload/" in
  let name := filepath_Base filePath in
  let body := io_ReadAll (Body r) in
  let record := encodeCommand {| Kind := CreateFile; Path := filePath; OldPath := "";
                                 NewPath := ""; Size := len body |} in
  let stored := <[name := Regular body]> (dataDir hs) in
  Method r = MethodPost ->
  goraft.IsLeader (raft hs) = true ->
  request_ok r ->
  is_Some (os_Create name (dataDir hs)) ->
  (length body <= room w)%nat ->
  createFileHandler hs w r
  = match goraft.Propose (raft hs) record with
    | Some e =>
        Returned (http_Error "Failed to replicate file metadata" StatusInternalServerError,
                  {| raft := raft hs; stateMachine := stateMachine hs; dataDir := stored |},
                  [EvPropose record; EvLog (LogRaftApplyError e)])
    | None =>
        Returned ({| StatusCode := StatusCreated;
                     Content := list_byte_of_string (created_message filePath (len body)) |},
                  {| raft := raft hs;
                     stateMachine :=
                       {| files := <[filePath := File.mk filePath (len body) (clock w)]>
                                     (files (stateMachine hs)) |};
                     dataDir := stored |},
                  EvPropose record :: replicateToFollowers hs w filePath body)
    end.
Proof.
  intros filePath name body record stored Hm Hl Hr [d1 Hc] Hroom.
  unfold createFileHandler.
  rewrite bool_decide_eq_true_2 by exact Hm. rewrite Hl. cbn [negb].
  fold filePath. fold name. rewrite Hc. fold body.
  rewrite (create_then_write _ _ _ _ _ Hc Hroom).
  rewrite Nat.ltb_irrefl.
  fold (len body). fold record. fold stored.
  unfold goraft.Apply. destruct (goraft.Propose (raft hs) record) as [e|].
  - reflexivity.
  - unfold record. rewrite Apply_CreateFile;
      [reflexivity | exact (proposed_command_ok r "/upload/" Hr) | reflexivity].
Qed.

Lemma push_to_no_propose (w : world) (filePath : string) (data : list byte)
    (f : goraft.ClusterMember) :
  Forall (fun e => forall rec, e <> EvPropose rec) (push_to w filePath data f).
Proof.
  unfold push_to. destruct (peer w f); repeat constructor; discriminate.
Qed.

(** The fan-out proposes nothing. *)
Lemma replicateToFollowers_no_propose (hs : httpServer) (w : world)
    (filePath : string) (data : list byte) :
  Forall (fun e => forall rec, e <> EvPropose rec)
         (replicateToFollowers hs w filePath data).
Proof.
  unfold replicateToFollowers.
  destruct (decide (goraft.Followers (raft hs) = [])) as [_|_].
  - repeat constructor. discriminate.
  - induction (goraft.Followers (raft hs)) as [|f fs IH]; simpl.
    + constructor.
    + apply Forall_app. split; [apply push_to_no_propose | exact IH].
Qed.

(** Every follower's push leaves its line in the log. *)
Lemma replicateToFollowers_records (hs : httpServer) (w : world)
    (filePath : string) (data : list byte) (f : goraft.ClusterMember) :
  f ∈ goraft.Followers (raft hs) ->
  EvLog (match peer w f with
         | RequestError => LogRequestError f
         | TransportError => LogReplicateError f
         | Responded status => LogReplicated f status
         end) ∈ replicateToFollowers hs w filePath data.
Proof.
  intros Hf. unfold replicateToFollowers.
  destruct (decide (goraft.Followers (raft hs) = [])) as [E|_].
  - rewrite E in Hf. inversion Hf.
  - apply list_elem_of_In, in_flat_map. exists f.
    split; [apply list_elem_of_In; exact Hf|].
    unfold push_to. destruct (peer w f); simpl; auto.
Qed.

End Handlers.

(** ** Claims about Create *)

Section CreateClaims.
Import Int.

Variables (hs : httpServer) (w : world) (r : request).

Let filePath : string := strings_TrimPrefix (URL_Path r) "/upload/".
Let name : string := filepath_Base filePath.
Let body : list byte := io_ReadAll (Body r).
Let record : list byte :=
  encodeCommand {| Kind := CreateFile; Path := filePath; OldPath := "";
                   NewPath := ""; Size := len body |}.

(** C5. Leadership gating: on a node whose leadership check says it is not
    the leader, a Create request is answered 503 "Not the leader", the node
    is left as it was, and nothing is proposed and nothing pushed: the
    handler causes no event at all.  (Whatever the method, the handler of
    such a node causes no event.) *)
Theorem non_leader_rejects_create :
  goraft.IsLeader (raft hs) = false ->
  (exists resp, createFileHandler hs w r = Returned (resp, hs, []))
  /\ (Method r = MethodPost ->
      createFileHandler hs w r
        = Returned (http_Error "Not the leader - try another node"
                               StatusServiceUnavailable, hs, [])
      /\ uploadHandler hs w r = createFileHandler hs w r).
Proof.
  intros Hl. split.
  - unfold createFileHandler. rewrite Hl.
    destruct (bool_decide (Method r = MethodPost)); simpl; eauto.
  - intros Hm. split.
    + unfold createFileHandler.
      rewrite bool_decide_eq_true_2 by exact Hm. rewrite Hl. reflexivity.
    + unfold uploadHandler. rewrite Hm. reflexivity.
Qed.

Hypothesis Hpost : Method r = MethodPost.
Hypothesis Hleader : goraft.IsLeader (raft hs) = true.
Hypothesis Hreq : request_ok r.
Hypothesis Hcreate : is_Some (os_Create name (dataDir hs)).
Hypothesis Hroom : (length body <= room w)%nat.

(** C3, amended.  Whenever Propose fails (NotLeader or ReplicationTimeout)
    the gateway answers with an explicit failure, makes no content push to
    any peer and leaves the FileTable as it was; the content store of the
    node, however, already holds the body of the request under the last
    element of the path, written before Propose was called. *)
Theorem failed_propose_stops_the_write (e : goraft.ApplyError) :
  goraft.Propose (raft hs) record = Some e ->
  exists hs' evs,
    createFileHandler hs w r
      = Returned (http_Error "Failed to replicate file metadata"
                             StatusInternalServerError, hs', evs)
    /\ (forall url data, EvPost url data ∉ evs)
    /\ evs = [EvPropose record; EvLog (LogRaftApplyError e)]
    /\ stateMachine hs' = stateMachine hs
    /\ dataDir hs' = <[name := Regular body]> (dataDir hs).
Proof.
  intros He.
  pose proof (createFileHandler_after_write hs w r Hpost Hleader Hreq Hcreate Hroom) as H.
  cbv zeta in H. fold filePath name body record in H. rewrite He in H.
  do 2 eexists. split; [exact H|]. split; [|auto].
  intros url data Hin. apply list_elem_of_In in Hin.
  destruct Hin as [Hin|[Hin|[]]]; discriminate Hin.
Qed.

(** C4. Partial replication tolerance: once Propose has committed, the
    handler answers 201 Created and the metadata record stands, whatever the
    pushes do.  The response and the node afterwards are the same for every
    assignment of outcomes to the peers; the fan-out proposes nothing more,
    and each peer's outcome (request error, refused connection or timeout,
    any status) is only written to the log. *)
Theorem create_succeeds_whatever_the_pushes :
  goraft.Propose (raft hs) record = None ->
  let resp := {| StatusCode := StatusCreated;
                 Content := list_byte_of_string (created_message filePath (len body)) |} in
  let hs' := {| raft := raft hs;
                stateMachine :=
                  {| files := <[filePath := File.mk filePath (len body) (clock w)]>
                                (files (stateMachine hs)) |};
                dataDir := <[name := Regular body]> (dataDir hs) |} in
  let pushes := replicateToFollowers hs w filePath body in
  createFileHandler hs w r = Returned (resp, hs', EvPropose record :: pushes)
  /\ (forall outcomes : goraft.ClusterMember -> push_result,
        exists evs,
          createFileHandler hs {| clock := clock w; room := room w; peer := outcomes |} r
          = Returned (resp, hs', evs))
  /\ Forall (fun ev => forall rec, ev <> EvPropose rec) pushes
  /\ (forall f, f ∈ goraft.Followers (raft hs) ->
        EvLog (match peer w f with
               | RequestError => LogRequestError f
               | TransportError => LogReplicateError f
               | Responded status => LogReplicated f status
               end) ∈ pushes).
Proof.
  intros Hp resp hs' pushes.
  pose proof (createFileHandler_after_write hs w r Hpost Hleader Hreq Hcreate Hroom) as H.
  cbv zeta in H. fold filePath name body record in H. rewrite Hp in H.
  split; [exact H|]. split; [|split].
  - intros outcomes.
    pose proof (createFileHandler_after_write hs
                  {| clock := clock w; room := room w; peer := outcomes |} r
                  Hpost Hleader Hreq Hcreate Hroom) as H2.
    cbv zeta in H2. fold filePath name body record in H2. rewrite Hp in H2.
    eexists. exact H2.
  - apply replicateToFollowers_no_propose.
  - intros f Hf. apply replicateToFollowers_records. exact Hf.
Qed.

End CreateClaims.

Section CreateExamples.
Import Example.

Lemma upload_ok : request_ok upload.
Proof. split; vm_compute; reflexivity. Defined.

Lemma upload_creates (raft : goraft.Server) :
  is_Some (os_Create (filepath_Base (strings_TrimPrefix (URL_Path upload) "/upload/"))
                     (dataDir (node raft))).
Proof. eexists. reflexivity. Defined.

Lemma upload_fits (w : world) :
  room w = 4096%nat -> (length (io_ReadAll (Body upload)) <= room w)%nat.
Proof. intros ->. apply Nat.leb_le. reflexivity. Defined.

Lemma non_leader_rejects_create_witness :
  goraft.IsLeader (raft (node follower)) = false
  /\ createFileHandler (node follower) all_up upload
     = Returned (http_Error "Not the leader - try another node"
                            StatusServiceUnavailable, node follower, []).
Proof.
  split; [reflexivity|].
  exact (proj1 (proj2 (non_leader_rejects_create (node follower) all_up upload eq_refl)
                      eq_refl)).
Defined.

(** C3, as stated, fails.  The engine times out on the proposal of a node
    that believes it leads; the handler answers 500, yet the data directory,
    empty before, now holds the five bytes of the body under "f.txt". *)
Lemma failed_create_leaves_content :
  let hs := node isolated in
  goraft.Propose (raft hs) (encodeCommand
      {| Kind := CreateFile; Path := "docs/f.txt"; OldPath := ""; NewPath := "";
         Size := 5 |}) = Some goraft.ReplicationTimeout
  /\ exists resp hs' evs,
      createFileHandler hs one_down upload = Returned (resp, hs', evs)
      /\ StatusCode resp = StatusInternalServerError
      /\ dataDir hs !! "f.txt"%string = None
      /\ dataDir hs' !! "f.txt"%string = Some (Regular hello)
      /\ dataDir hs' <> dataDir hs.
Proof.
  intros hs. split; [reflexivity|].
  remember (createFileHandler hs one_down upload) as res eqn:E.
  vm_compute in E. subst res.
  do 3 eexists. split; [reflexivity|].
  split; [reflexivity|]. split; [reflexivity|]. split; [vm_compute; reflexivity|].
  intros H. apply (f_equal (fun d => d !! "f.txt"%string)) in H.
  vm_compute in H. discriminate H.
Qed.

Lemma failed_propose_stops_the_write_witness :
  let hs := node isolated in
  exists hs' evs,
    createFileHandler hs one_down upload
      = Returned (http_Error "Failed to replicate file metadata"
                             StatusInternalServerError, hs', evs)
    /\ (forall url data, EvPost url data ∉ evs)
    /\ stateMachine hs' = stateMachine hs
    /\ dataDir hs' !! "f.txt"%string = Some (Regular hello).
Proof.
  intros hs.
  destruct (failed_propose_stops_the_write hs one_down upload
              eq_refl eq_refl upload_ok (upload_creates isolated)
              (upload_fits one_down eq_refl) goraft.ReplicationTimeout eq_refl)
    as (hs' & evs & Hrun & Hpost & _ & Hsm & Hdir).
  exists hs', evs. split; [exact Hrun|]. split; [exact Hpost|]. split; [exact Hsm|].
  rewrite Hdir. reflexivity.
Defined.

(** One of the three peers unreachable: the write still answers 201. *)
Lemma create_succeeds_whatever_the_pushes_witness :
  let hs := node leader in
  peer one_down n3 = TransportError
  /\ exists hs' evs,
      createFileHandler hs one_down upload
        = Returned ({| StatusCode := StatusCreated;
                       Content := list_byte_of_string
                         "File 'docs/f.txt' created and replicated successfully (5 bytes)" |},
                    hs', evs)
      /\ files (stateMachine hs') !! "docs/f.txt"%string = Some (File.mk "docs/f.txt" 5 7)
      /\ EvLog (LogReplicateError n3) ∈ evs
      /\ exists evs', createFileHandler hs all_up upload
                      = Returned ({| StatusCode := StatusCreated;
                                     Content := list_byte_of_string
                         "File 'docs/f.txt' created and replicated successfully (5 bytes)" |},
                                  hs', evs').
Proof.
  intros hs. split; [reflexivity|].
  destruct (create_succeeds_whatever_the_pushes hs one_down upload
              eq_refl eq_refl upload_ok (upload_creates leader)
              (upload_fits one_down eq_refl) eq_refl)
    as (Hrun & Hany & _ & Hlog).
  do 2 eexists. split; [exact Hrun|]. split; [reflexivity|]. split.
  - apply list_elem_of_In. right. apply list_elem_of_In.
    apply (Hlog n3). apply list_elem_of_In. right. left. reflexivity.
  - exact (Hany (peer all_up)).
Defined.

End CreateExamples.

(** ** Claims about Fetch *)

Section FetchClaims.

Variables (hs : httpServer) (r : request).

Let filePath : string := strings_TrimPrefix (URL_Path r) "/upload/".
Let name : string := filepath_Base filePath.

Lemma ContentUnavailableLocally_not_NotFound : ContentUnavailableLocally <> NotFound.
Proof. intros H. apply (f_equal Content) in H. vm_compute in H. discriminate H. Qed.

(** C8. Fetch tells the two failures apart.  The answer is [NotFound]
    exactly when the path is absent from the FileTable.  With the path in
    the FileTable and no content stored for it on the node, the answer is
    [ContentUnavailableLocally], a different response (both carry status
    404; the messages differ).  With metadata and a local file both there,
    the answer is the bytes of the file. *)
Theorem fetch_discriminates :
  (getFileHandler hs r = NotFound <-> files (stateMachine hs) !! filePath = None)
  /\ (is_Some (files (stateMachine hs) !! filePath) ->
      dataDir hs !! name = None ->
      getFileHandler hs r = ContentUnavailableLocally)
  /\ ContentUnavailableLocally <> NotFound
  /\ (is_Some (files (stateMachine hs) !! filePath) ->
      forall data, dataDir hs !! name = Some (Regular data) ->
      getFileHandler hs r = {| StatusCode := StatusOK; Content := data |}).
Proof.
  unfold getFileHandler. fold filePath. cbv zeta. fold name.
  split; [|split; [|split]].
  - destruct (files (stateMachine hs) !! filePath) as [f|]; [|split; reflexivity].
    split; [|discriminate].
    destruct (dataDir hs !! name) as [[data| |]|]; intros H.
    + apply (f_equal StatusCode) in H. discriminate H.
    + apply (f_equal StatusCode) in H. discriminate H.
    + apply (f_equal StatusCode) in H. discriminate H.
    + destruct (ContentUnavailableLocally_not_NotFound H).
  - intros [f ->] ->. reflexivity.
  - exact ContentUnavailableLocally_not_NotFound.
  - intros [f ->] data ->. reflexivity.
Qed.

End FetchClaims.

Section FetchExamples.
Import Example.

Lemma fetch_discriminates_witness :
  let meta := {| files := {[ "docs/f.txt"%string := File.mk "docs/f.txt" 5 7 ]} |} in
  let bare := {| raft := follower; stateMachine := meta; dataDir := ∅ |} in
  let full := {| raft := follower; stateMachine := meta;
                 dataDir := {[ "f.txt"%string := Regular hello ]} |} in
  let get p := {| Method := MethodGet; URL_Path := p; Body := [] |} in
  getFileHandler bare (get "/upload/other.txt") = NotFound
  /\ getFileHandler bare (get "/upload/docs/f.txt") = ContentUnavailableLocally
  /\ getFileHandler full (get "/upload/docs/f.txt")
     = {| StatusCode := StatusOK; Content := hello |}.
Proof.
  intros meta bare full get. split; [|split].
  - apply (proj1 (fetch_discriminates bare (get "/upload/other.txt"))). reflexivity.
  - apply (proj1 (proj2 (fetch_discriminates bare (get "/upload/docs/f.txt")))).
    + eexists. reflexivity.
    + reflexivity.
  - apply (proj2 (proj2 (proj2 (fetch_discriminates full (get "/upload/docs/f.txt"))))).
    + eexists. reflexivity.
    + reflexivity.
Defined.

End FetchExamples.

(** ** Claims about the visibility of a content write *)

Section ContentWrite.

(** The writes of [io.Copy], each at the end of what is already there: every
    state holds a prefix of the body, the last one all of it. *)
Lemma io_Copy_states_prefixes (name : string) (d : gmap string inode)
    (chunks : list (list byte)) :
  forall (room : nat) (written : list byte),
    (length (concat chunks) <= room)%nat ->
    Forall (fun di => exists k,
              di = <[name := Regular (written ++ take k (concat chunks))]> d)
           (io_Copy_states room name (length written) chunks
                           (<[name := Regular written]> d))
    /\ last (<[name := Regular written]> d
             :: io_Copy_states room name (length written) chunks
                               (<[name := Regular written]> d))
       = Some (<[name := Regular (written ++ concat chunks)]> d).
Proof.
  induction chunks as [|c rest IH]; intros room written Hroom.
  - simpl. rewrite app_nil_r. split; [constructor | reflexivity].
  - simpl in Hroom. rewrite length_app in Hroom.
    cbn [io_Copy_states].
    rewrite file_Write_end by lia.
    rewrite Nat.ltb_irrefl.
    destruct (IH (room - length c)%nat (written ++ c)) as [Hall Hlast]; [lia|].
    rewrite length_app in Hall, Hlast.
    split.
    + constructor.
      * exists (length c). cbn [concat]. rewrite take_app_length. reflexivity.
      * eapply Forall_impl; [exact Hall|].
        intros di [k ->]. exists (length c + k)%nat. cbn [concat].
        rewrite take_app_add, app_assoc. reflexivity.
    + rewrite last_cons_cons. rewrite Hlast. cbn [concat].
      rewrite app_assoc. reflexivity.
Qed.

(** The last state [io.Copy] passes through is the one it returns. *)
Lemma io_Copy_file_last (name : string) (chunks : list (list byte)) :
  forall (room off : nat) (d : gmap string inode),
    last (d :: io_Copy_states room name off chunks d)
    = Some (io_Copy_file room name off chunks d).
Proof.
  induction chunks as [|c rest IH]; intros room off d; [reflexivity|].
  cbn [io_Copy_states io_Copy_file].
  destruct (file_Write room name off c d) as [n d'].
  rewrite last_cons_cons.
  destruct (n <? length c)%nat; [reflexivity | apply IH].
Qed.

(** The states listed for a push are the ones [replicateFileHandler] goes
    through, up to the node it leaves. *)
Lemma replicateFile_states_last (hs : httpServer) (w : world) (r : request) :
  let name := filepath_Base (strings_TrimPrefix (URL_Path r) "/replicate/") in
  last (replicateFile_states (room w) name (Body r) (dataDir hs))
  = Some (dataDir (replicateFileHandler hs w r).2).
Proof.
  intros name. unfold replicateFile_states, replicateFileHandler. fold name.
  destruct (os_Create name (dataDir hs)) as [d1|]; [|reflexivity].
  rewrite last_cons_cons. cbn [snd dataDir]. apply io_Copy_file_last.
Qed.

Variables (hs : httpServer) (room : nat) (path : string)
          (chunks : list (list byte)) (meta : File).

Let name : string := filepath_Base path.
Let body : list byte := io_ReadAll chunks.
Let d : gmap string inode := dataDir hs.

Hypothesis Hmeta : files (stateMachine hs) !! path = Some meta.
Hypothesis Hcreate : is_Some (os_Create name d).
Hypothesis Hroom : (length body <= room)%nat.

(** A fetch served while the file holds [bytes] answers with [bytes]. *)
Lemma fetch_at_Regular (bytes : list byte) :
  fetch_at hs path (<[name := Regular bytes]> d)
  = {| StatusCode := StatusOK; Content := bytes |}.
Proof.
  unfold fetch_at, getFileHandler. cbn [URL_Path stateMachine dataDir].
  rewrite TrimPrefix_upload, Hmeta. fold name.
  rewrite lookup_insert_eq. reflexivity.
Qed.

(** C9, amended.  A content write is not an atomic replacement.  Both the
    leader-side Create and the peer push first truncate the file that
    fetches read ([os.Create]) and then write the new bytes into it.  A
    fetch of the same key served before the write sees what was there; one
    served after the last step sees the complete new content; one served
    in between sees a prefix of the new content: the empty file right after
    the truncation and, during a peer push, the chunks copied so far. *)
Theorem content_write_is_stepwise :
  createFile_states room name body d
    = [d; <[name := Regular []]> d; <[name := Regular body]> d]
  /\ (exists mids,
        replicateFile_states room name chunks d
          = d :: <[name := Regular []]> d :: mids
        /\ Forall (fun di => exists k, di = <[name := Regular (take k body)]> d) mids
        /\ last (<[name := Regular []]> d :: mids) = Some (<[name := Regular body]> d))
  /\ fetch_at hs path (<[name := Regular []]> d)
     = {| StatusCode := StatusOK; Content := [] |}
  /\ (forall k, fetch_at hs path (<[name := Regular (take k body)]> d)
                = {| StatusCode := StatusOK; Content := take k body |})
  /\ fetch_at hs path (<[name := Regular body]> d)
     = {| StatusCode := StatusOK; Content := body |}.
Proof.
  destruct Hcreate as [d1 Hd1].
  pose proof (os_Create_Some _ _ _ Hd1) as E1.
  split; [|split; [|split; [|split]]].
  - unfold createFile_states. rewrite Hd1.
    rewrite (create_then_write _ _ _ _ _ Hd1 Hroom). rewrite E1. reflexivity.
  - unfold replicateFile_states. rewrite Hd1, E1.
    destruct (io_Copy_states_prefixes name d chunks room [] Hroom) as [Hall Hlast].
    eexists. split; [reflexivity|]. split; [exact Hall | exact Hlast].
  - apply fetch_at_Regular.
  - intros k. apply fetch_at_Regular.
  - apply fetch_at_Regular.
Qed.

End ContentWrite.

Section ContentWriteExamples.
Import Example.

(** The states listed for a Create are the ones [createFileHandler] goes
    through, up to the node it leaves. *)
Lemma createFile_states_last (hs hs' : httpServer) (w : world) (r : request)
    (resp : response) (evs : list event) :
  let name := filepath_Base (strings_TrimPrefix (URL_Path r) "/upload/") in
  Method r = MethodPost ->
  goraft.IsLeader (raft hs) = true ->
  createFileHandler hs w r = Returned (resp, hs', evs) ->
  last (createFile_states (room w) name (io_ReadAll (Body r)) (dataDir hs))
  = Some (dataDir hs').
Proof.
  intros name Hm Hl. unfold createFileHandler, createFile_states.
  rewrite bool_decide_eq_true_2 by exact Hm. rewrite Hl. cbn [negb]. fold name.
  destruct (os_Create name (dataDir hs)) as [d1|].
  - destruct (file_Write (room w) name 0 (io_ReadAll (Body r)) d1) as [n d2].
    cbn [snd]. destruct (n <? length (io_ReadAll (Body r)))%nat.
    + intros [= _ <- _]. reflexivity.
    + unfold mbind, outcome_bind.
      destruct (goraft.Apply _ _ _ _) as [[sm [e|]]|]; [| |discriminate];
        intros [= _ <- _]; reflexivity.
  - intros [= _ <- _]. reflexivity.
Qed.

(** C9, as stated, fails.  The node holds "old content" for "f.txt".  While
    a Create stores "hello", the state after [os.Create] answers a fetch with
    the empty file; while a push delivers "he" and then "llo", the state
    after the first chunk answers with "he".  Neither answer is the old or
    the new content. *)
Lemma fetch_between_steps_sees_partial_content :
  let old := list_byte_of_string "old content" in
  let hs := {| raft := leader;
               stateMachine := {| files := {[ "f.txt"%string := File.mk "f.txt" 11 1 ]} |};
               dataDir := {[ "f.txt"%string := Regular old ]} |} in
  let he := list_byte_of_string "he" in
  let llo := list_byte_of_string "llo" in
  fetch_at hs "f.txt" (dataDir hs) = {| StatusCode := StatusOK; Content := old |}
  /\ (exists mid, createFile_states 4096 "f.txt" hello (dataDir hs) !! 1%nat = Some mid
                  /\ fetch_at hs "f.txt" mid = {| StatusCode := StatusOK; Content := [] |})
  /\ (exists mid, replicateFile_states 4096 "f.txt" [he; llo] (dataDir hs) !! 2%nat = Some mid
                  /\ fetch_at hs "f.txt" mid = {| StatusCode := StatusOK; Content := he |})
  /\ [] <> old /\ [] <> hello /\ he <> old /\ he <> hello.
Proof.
  intros old hs he llo.
  split; [vm_compute; reflexivity|].
  split; [eexists; split; [reflexivity | vm_compute; reflexivity]|].
  split; [eexists; split; [reflexivity | vm_compute; reflexivity]|].
  repeat split; discriminate.
Qed.

Lemma content_write_is_stepwise_witness :
  let old := list_byte_of_string "old content" in
  let meta := File.mk "f.txt" 11 1 in
  let hs := {| raft := leader;
               stateMachine := {| files := {[ "f.txt"%string := meta ]} |};
               dataDir := {[ "f.txt"%string := Regular old ]} |} in
  let chunks := [list_byte_of_string "he"; list_byte_of_string "llo"] in
  createFile_states 4096 "f.txt" hello (dataDir hs)
    = [dataDir hs; <["f.txt"%string := Regular []]> (dataDir hs);
       <["f.txt"%string := Regular hello]> (dataDir hs)]
  /\ fetch_at hs "f.txt" (<["f.txt"%string := Regular []]> (dataDir hs))
     = {| StatusCode := StatusOK; Content := [] |}.
Proof.
  intros old meta hs chunks.
  assert (Hmeta : files (stateMachine hs) !! "f.txt"%string = Some meta) by reflexivity.
  assert (Hcreate : is_Some (os_Create (filepath_Base "f.txt") (dataDir hs)))
    by (eexists; reflexivity).
  assert (Hroom : (length (io_ReadAll chunks) <= 4096)%nat)
    by (apply Nat.leb_le; reflexivity).
  destruct (content_write_is_stepwise hs 4096 "f.txt" chunks meta Hmeta Hcreate Hroom)
    as (Hstates & _ & Hempty & _).
  split; [exact Hstates | exact Hempty].
Defined.

End ContentWriteExamples.

(** * Further properties of the code *)

(** ** The codec *)

Section CodecMore.
Import Int LittleEndian.

(** The encoding is the kind byte, three length-prefixed strings and the
    size: thirty-three bytes more than the strings take. *)
Theorem encodeCommand_length (c : command) :
  length (encodeCommand c)
  = (33 + String.length (Path c) + String.length (OldPath c)
     + String.length (NewPath c))%nat
  /\ head (encodeCommand c) = Some (Kind c).
Proof.
  split; [|reflexivity].
  unfold encodeCommand.
  rewrite !length_app, !length_PutUint64, !length_list_byte_of_string.
  simpl length. lia.
Qed.

(** Encodings are self-delimiting: when two encodings, each followed by any
    bytes, are the same byte sequence, the commands are equal and so are the
    bytes that follow. *)
Theorem encodeCommand_prefix_free (c1 c2 : command) (s1 s2 : list byte) :
  command_ok c1 -> command_ok c2 ->
  encodeCommand c1 ++ s1 = encodeCommand c2 ++ s2 ->
  c1 = c2 /\ s1 = s2.
Proof.
  intros H1 H2 E.
  assert (Hc : c1 = c2).
  { pose proof (decode_encode_app c1 s1 H1) as D1.
    rewrite E, (decode_encode_app c2 s2 H2) in D1. congruence. }
  split; [exact Hc|]. subst c2. exact (app_inv_head _ _ _ E).
Qed.

Lemma encodeCommand_prefix_free_witness :
  let c := {| Kind := DeleteFile; Path := "a/b"; OldPath := ""; NewPath := ""; Size := 0 |} in
  command_ok c
  /\ (encodeCommand c ++ [x01] = encodeCommand c ++ [x01] -> c = c /\ [x01] = [x01]).
Proof.
  intros c.
  assert (Hc : command_ok c).
  { apply command_ok_intro; vm_compute; try reflexivity; split; [discriminate | reflexivity]. }
  split; [exact Hc|]. exact (encodeCommand_prefix_free c c [x01] [x01] Hc Hc).
Defined.

Lemma int64_high (n : Z) : two63 <= n < two64 -> int64 n = n - two64.
Proof.
  intros H. unfold int64, two63, two64 in *. cbv zeta.
  rewrite Z.mod_small by lia.
  destruct (Z.ltb_spec n (2 ^ 63)); [lia | reflexivity].
Qed.

(** A declared length with its top bit set is a negative [int]: the decoder
    panics in [buf.Next], and so does [Apply] on such an entry. *)
Theorem decode_panics_on_negative_length (tag : commandKind) (n : Z)
    (rest : list byte) (now : Time) (s : DFSStateMachine) :
  two63 <= n < two64 ->
  decodeCommand (tag :: PutUint64 n ++ rest) = Panic SliceBoundsOutOfRange
  /\ Apply now s (tag :: PutUint64 n ++ rest) = Panic SliceBoundsOutOfRange.
Proof.
  intros Hn.
  assert (D : decodeCommand (tag :: PutUint64 n ++ rest) = Panic SliceBoundsOutOfRange).
  { unfold decodeCommand, Buf.run, mbind, mret, Buffer_bind, Buffer_ret.
    rewrite Next_1_cons. unfold Buf.first.
    rewrite Read_PutUint64 by (unfold is_uint64, two63, two64 in *; lia).
    rewrite int64_high by exact Hn.
    unfold Buf.Next.
    assert (Hneg : n - two64 < 0) by lia.
    assert (Hl : 0 <= len rest) by (unfold len; lia).
    destruct (Z.ltb_spec (len rest) (n - two64)); [lia|].
    destruct (Z.ltb_spec (n - two64) 0); [reflexivity | lia]. }
  split; [exact D|]. unfold Apply. rewrite D. reflexivity.
Qed.

Lemma decode_panics_on_negative_length_witness :
  (two63 <= 18446744073709551615 < two64)
  /\ decodeCommand (CreateFile :: PutUint64 18446744073709551615 ++ [x00; x01])
     = Panic SliceBoundsOutOfRange
  /\ Apply 3 NewDFSStateMachine (CreateFile :: PutUint64 18446744073709551615 ++ [x00; x01])
     = Panic SliceBoundsOutOfRange.
Proof.
  assert (Hn : two63 <= 18446744073709551615 < two64)
    by (vm_compute; split; [discriminate | reflexivity]).
  split; [exact Hn|].
  exact (decode_panics_on_negative_length CreateFile 18446744073709551615 [x00; x01]
           3 NewDFSStateMachine Hn).
Defined.

(** A record that ends inside its size field decodes to the same command
    with size zero: the short read is dropped and the variable keeps its
    initial value. *)
Theorem decode_cut_size_reads_zero (c : command) (j : nat) :
  command_ok c -> (j < 8)%nat ->
  decodeCommand (take (length (encodeCommand c) - 8 + j) (encodeCommand c))
  = Returned {| Kind := Kind c; Path := Path c; OldPath := OldPath c;
                NewPath := NewPath c; Size := 0 |}.
Proof.
  intros [HP HO HN HS] Hj. destruct c as [k p o n sz].
  cbn [Kind Path OldPath NewPath Size] in *.
  pose proof (proj1 (encodeCommand_length (mkCommand k p o n sz))) as L.
  cbn [Kind Path OldPath NewPath Size] in L. rewrite L. clear L.
  unfold encodeCommand. cbn [Kind Path OldPath NewPath Size].
  repeat rewrite app_assoc.
  rewrite take_app_ge.
  2:{ rewrite !length_app, !length_PutUint64, !length_list_byte_of_string.
      simpl length. lia. }
  match goal with
  | |- context [take ?m (PutUint64 (uint64 sz))] => replace m with j
  end.
  2:{ rewrite !length_app, !length_PutUint64, !length_list_byte_of_string.
      simpl length. lia. }
  repeat rewrite <- app_assoc. change ([k] ++ ?l) with (k :: l).
  unfold decodeCommand, Buf.run, mbind, mret, Buffer_bind, Buffer_ret.
  rewrite Next_1_cons. unfold Buf.first.
  rewrite Read_PutUint64, declared_length, Next_app by (apply is_uint64_uint64 || assumption).
  rewrite Read_PutUint64, declared_length, Next_app by (apply is_uint64_uint64 || assumption).
  rewrite Read_PutUint64, declared_length, Next_app by (apply is_uint64_uint64 || assumption).
  rewrite Read_uint64_short by (rewrite length_take, length_PutUint64; lia).
  rewrite !string_of_list_byte_of_string. reflexivity.
Qed.

Lemma decode_cut_size_reads_zero_witness :
  let c := {| Kind := CreateFile; Path := "big.bin"; OldPath := ""; NewPath := "";
              Size := 4096 |} in
  command_ok c /\ (7 < 8)%nat
  /\ decodeCommand (take (length (encodeCommand c) - 8 + 7) (encodeCommand c))
     = Returned {| Kind := CreateFile; Path := "big.bin"; OldPath := ""; NewPath := "";
                   Size := 0 |}.
Proof.
  intros c.
  assert (Hc : command_ok c).
  { apply command_ok_intro; vm_compute; try reflexivity; split; [discriminate | reflexivity]. }
  assert (Hj : (7 < 8)%nat) by (apply Nat.ltb_lt; reflexivity).
  split; [exact Hc|]. split; [exact Hj|].
  exact (decode_cut_size_reads_zero c 7 Hc Hj).
Defined.

End CodecMore.

(** ** The state machine *)

Section ApplyMore.

Lemma DFSStateMachine_eq (s1 s2 : DFSStateMachine) : files s1 = files s2 -> s1 = s2.
Proof. destruct s1, s2. simpl. intros ->. reflexivity. Qed.

(** DeleteFile is idempotent.  It succeeds whether or not the path is there;
    afterwards the path is absent and no other path has changed; on a table
    without the path it changes nothing, so a second application changes
    nothing. *)
Theorem delete_is_idempotent (now now' : Time) (s : DFSStateMachine) (c : command) :
  command_ok c -> Kind c = DeleteFile ->
  exists s1,
    Apply now s (encodeCommand c) = Returned (s1, None)
    /\ files s1 !! Path c = None
    /\ (forall q, q <> Path c -> files s1 !! q = files s !! q)
    /\ (files s !! Path c = None -> s1 = s)
    /\ Apply now' s1 (encodeCommand c) = Returned (s1, None).
Proof.
  intros Hc Hk. eexists. split; [apply Apply_DeleteFile; assumption|].
  cbn [files]. split; [apply lookup_delete_eq|]. split; [|split].
  - intros q Hq. apply lookup_delete_ne. congruence.
  - intros Habs. apply DFSStateMachine_eq. cbn [files]. apply delete_id. exact Habs.
  - rewrite Apply_DeleteFile by assumption. f_equal. f_equal.
    apply DFSStateMachine_eq. cbn [files]. apply delete_id. apply lookup_delete_eq.
Qed.

Lemma delete_is_idempotent_witness :
  let c := {| Kind := DeleteFile; Path := "gone"; OldPath := ""; NewPath := ""; Size := 0 |} in
  command_ok c /\ Kind c = DeleteFile
  /\ Apply 2 NewDFSStateMachine (encodeCommand c) = Returned (NewDFSStateMachine, None).
Proof.
  intros c.
  assert (Hc : command_ok c).
  { apply command_ok_intro; vm_compute; try reflexivity; split; [discriminate | reflexivity]. }
  split; [exact Hc|]. split; [reflexivity|].
  destruct (delete_is_idempotent 2 2 NewDFSStateMachine c Hc eq_refl)
    as (s1 & Ha & _ & _ & Hsame & _).
  rewrite Ha. rewrite (Hsame eq_refl). reflexivity.
Defined.

(** CreateFile overwrites.  After it the path holds the record with the
    path as its name, the size of the command and the time of application,
    whatever was there; no other path has changed; and a create applied over
    an earlier create of the same path leaves the table the later one alone
    would have left. *)
Theorem create_overwrites (t1 t2 : Time) (s : DFSStateMachine) (p : string)
    (n1 n2 : Z) :
  let create n := encodeCommand {| Kind := CreateFile; Path := p; OldPath := "";
                                   NewPath := ""; Size := n |} in
  strlen p < Int.two63 -> Int.is_int64 n1 -> Int.is_int64 n2 ->
  exists s1 s2,
    Apply t1 s (create n1) = Returned (s1, None)
    /\ Apply t2 s1 (create n2) = Returned (s2, None)
    /\ files s2 !! p = Some (File.mk p n2 t2)
    /\ (forall q, q <> p -> files s2 !! q = files s !! q)
    /\ Apply t2 s (create n2) = Returned (s2, None).
Proof.
  intros create Hp H1 H2.
  assert (Hc : forall n, Int.is_int64 n ->
            command_ok {| Kind := CreateFile; Path := p; OldPath := "";
                          NewPath := ""; Size := n |}).
  { intros n Hn. apply command_ok_intro; [exact Hp | reflexivity | reflexivity | exact Hn]. }
  do 2 eexists. unfold create.
  split; [apply Apply_CreateFile; [apply Hc; exact H1 | reflexivity]|].
  split; [apply Apply_CreateFile; [apply Hc; exact H2 | reflexivity]|].
  cbn [files Path Size]. split; [apply lookup_insert_eq|]. split.
  - intros q Hq. rewrite !lookup_insert_ne by congruence. reflexivity.
  - rewrite Apply_CreateFile by (apply Hc; exact H2) || reflexivity.
    cbn [files Path Size]. rewrite insert_insert_eq. reflexivity.
Qed.

Lemma create_overwrites_witness :
  let create n := encodeCommand {| Kind := CreateFile; Path := "x"; OldPath := "";
                                   NewPath := ""; Size := n |} in
  exists s1 s2,
    Apply 1 NewDFSStateMachine (create 5) = Returned (s1, None)
    /\ Apply 2 s1 (create 9) = Returned (s2, None)
    /\ files s2 !! "x"%string = Some (File.mk "x" 9 2).
Proof.
  intros create.
  assert (Hp : strlen "x" < Int.two63) by reflexivity.
  assert (H5 : Int.is_int64 5) by (vm_compute; split; [discriminate | reflexivity]).
  assert (H9 : Int.is_int64 9) by (vm_compute; split; [discriminate | reflexivity]).
  destruct (create_overwrites 1 2 NewDFSStateMachine "x" 5 9 Hp H5 H9)
    as (s1 & s2 & Ha & Hb & Hl & _).
  exists s1, s2. split; [exact Ha|]. split; [exact Hb | exact Hl].
Defined.

(** RenameFile is DeleteFile of the old path followed by CreateFile of the new
    one at the same clock reading: the size of the new record is the size in
    the command, and nothing of the old record is carried over. *)
Theorem rename_is_delete_then_create (now : Time) (s : DFSStateMachine)
    (old new : string) (size : Z) :
  let rename := encodeCommand {| Kind := RenameFile; Path := ""; OldPath := old;
                                 NewPath := new; Size := size |} in
  let delete := encodeCommand {| Kind := DeleteFile; Path := old; OldPath := "";
                                 NewPath := ""; Size := 0 |} in
  let create := encodeCommand {| Kind := CreateFile; Path := new; OldPath := "";
                                 NewPath := ""; Size := size |} in
  strlen old < Int.two63 -> strlen new < Int.two63 -> Int.is_int64 size ->
  exists s1,
    Apply now s delete = Returned (s1, None)
    /\ Apply now s rename = Apply now s1 create.
Proof.
  intros rename delete create Ho Hn Hs.
  assert (H0 : Int.is_int64 0) by (vm_compute; split; [discriminate | reflexivity]).
  eexists. unfold rename, delete, create.
  split.
  - apply Apply_DeleteFile; [|reflexivity].
    apply command_ok_intro; [exact Ho | reflexivity | reflexivity | exact H0].
  - rewrite Apply_RenameFile;
      [|apply command_ok_intro; [reflexivity | exact Ho | exact Hn | exact Hs] | reflexivity].
    rewrite Apply_CreateFile;
      [|apply command_ok_intro; [exact Hn | reflexivity | reflexivity | exact Hs] | reflexivity].
    reflexivity.
Qed.

Lemma rename_is_delete_then_create_witness :
  let s := {| files := {[ "a"%string := File.mk "a" 700 1 ]} |} in
  let rename := encodeCommand {| Kind := RenameFile; Path := ""; OldPath := "a";
                                 NewPath := "b"; Size := 3 |} in
  exists s', Apply 9 s rename = Returned (s', None)
             /\ files s' !! "b"%string = Some (File.mk "b" 3 9)
             /\ files s' !! "a"%string = None.
Proof.
  intros s rename.
  assert (Ha : strlen "a" < Int.two63) by reflexivity.
  assert (Hb : strlen "b" < Int.two63) by reflexivity.
  assert (H3 : Int.is_int64 3) by (vm_compute; split; [discriminate | reflexivity]).
  destruct (rename_is_delete_then_create 9 s "a" "b" 3 Ha Hb H3) as (s1 & Hd & Hr).
  eexists. split.
  - unfold rename. rewrite Hr. vm_compute in Hd. injection Hd as <-.
    vm_compute. reflexivity.
  - split; vm_compute; reflexivity.
Defined.

(** One step keeps every record under its own name, whatever bytes are
    applied. *)
Lemma Apply_names_are_keys (now : Time) (s s' : DFSStateMachine) (cmd : list byte)
    (e : option error) :
  names_are_keys s -> Apply now s cmd = Returned (s', e) -> names_are_keys s'.
Proof.
  intros Hinv. unfold Apply.
  destruct (decodeCommand cmd) as [c|q]; [|discriminate].
  unfold mbind, outcome_bind, mret, outcome_ret.
  repeat case_decide; intros [= <- _]; intros k f; cbn [files].
  - rewrite lookup_insert. case_decide as Hk.
    + intros [= <-]. simpl. exact Hk.
    + apply Hinv.
  - rewrite lookup_delete. case_decide; [discriminate | apply Hinv].
  - rewrite lookup_insert. case_decide as Hk.
    + intros [= <-]. simpl. exact Hk.
    + rewrite lookup_delete. case_decide; [discriminate | apply Hinv].
  - apply Hinv.
Qed.

Lemma replay_names_are_keys (entries : list (Time * list byte)) :
  forall (s s' : DFSStateMachine) (e : option error),
    names_are_keys s -> replay entries s = Returned (s', e) -> names_are_keys s'.
Proof.
  induction entries as [|[now cmd] rest IH]; intros s s' e Hinv.
  - intros [= <- _]. exact Hinv.
  - cbn [replay]. unfold mbind, outcome_bind.
    destruct (Apply now s cmd) as [[s1 [e1|]]|q] eqn:E; [| |discriminate].
    + intros [= <- _]. exact (Apply_names_are_keys _ _ _ _ _ Hinv E).
    + apply IH. exact (Apply_names_are_keys _ _ _ _ _ Hinv E).
Qed.

Lemma names_are_keys_empty : names_are_keys NewDFSStateMachine.
Proof. intros k f H. cbn [files NewDFSStateMachine] in H. rewrite lookup_empty in H. discriminate H. Defined.

(** The name of a record is the path it is stored under: [Apply] keeps this
    for every sequence of bytes it is given, well formed or not, and so does
    the replay of any log. *)
Theorem table_names_are_keys (entries : list (Time * list byte))
    (s s' : DFSStateMachine) (e : option error) :
  names_are_keys s ->
  replay entries s = Returned (s', e) ->
  names_are_keys s'.
Proof. apply replay_names_are_keys. Qed.

Lemma table_names_are_keys_witness :
  let create := encodeCommand {| Kind := CreateFile; Path := "x"; OldPath := "";
                                 NewPath := ""; Size := 5 |} in
  let s' := {| files := {[ "x"%string := File.mk "x" 5 1 ]} |} in
  names_are_keys NewDFSStateMachine
  /\ replay [(1, create); (2, [x09])] NewDFSStateMachine
     = Returned (s', Some (UnknownCommand x09))
  /\ names_are_keys s'.
Proof.
  intros create s'.
  assert (Hr : replay [(1, create); (2, [x09])] NewDFSStateMachine
               = Returned (s', Some (UnknownCommand x09))) by (vm_compute; reflexivity).
  split; [exact names_are_keys_empty|]. split; [exact Hr|].
  exact (table_names_are_keys _ _ _ _ names_are_keys_empty Hr).
Defined.

End ApplyMore.

(** ** Listing *)

Section ListingMore.

Lemma names_of_entries (l : list (string * File)) :
  Forall (fun kf => File.Name kf.2 = kf.1) l -> File.Name <$> l.*2 = l.*1.
Proof.
  induction 1 as [|[k f] l Hkf _ IH]; [reflexivity|].
  simpl in *. rewrite Hkf. f_equal. exact IH.
Qed.

(** The listing of a table whose records sit under their names has each
    path once: the names are pairwise different, a record is listed exactly
    when it is the record of its name, and there are as many records as
    paths.  (The table of a node is such a table: see
    [table_names_are_keys].) *)
Theorem listing_has_each_path_once (hs : httpServer) :
  names_are_keys (stateMachine hs) ->
  NoDup (File.Name <$> listFilesHandler hs)
  /\ (forall f, f ∈ listFilesHandler hs
                <-> files (stateMachine hs) !! File.Name f = Some f)
  /\ length (listFilesHandler hs) = size (files (stateMachine hs)).
Proof.
  intros Hinv. unfold listFilesHandler.
  set (m := files (stateMachine hs)).
  assert (Hall : Forall (fun kf => File.Name kf.2 = kf.1) (map_to_list m)).
  { apply Forall_forall. intros [k f] Hin. simpl.
    apply elem_of_map_to_list in Hin. exact (Hinv k f Hin). }
  split; [|split].
  - rewrite (names_of_entries _ Hall). apply NoDup_fst_map_to_list.
  - intros f. rewrite list_elem_of_fmap. split.
    + intros ([k f'] & -> & Hin). simpl.
      apply elem_of_map_to_list in Hin. rewrite (Hinv k f' Hin). exact Hin.
    + intros Hf. exists (File.Name f, f). split; [reflexivity|].
      apply elem_of_map_to_list. exact Hf.
  - rewrite length_fmap. apply length_map_to_list.
Qed.

Lemma listing_has_each_path_once_witness :
  let hs := {| raft := Example.follower;
               stateMachine := {| files := {[ "x"%string := File.mk "x" 5 1 ]} |};
               dataDir := ∅ |} in
  names_are_keys (stateMachine hs)
  /\ NoDup (File.Name <$> listFilesHandler hs)
  /\ length (listFilesHandler hs) = 1%nat.
Proof.
  intros hs.
  assert (Hinv : names_are_keys (stateMachine hs)).
  { intros k f H. cbn [files stateMachine hs] in H.
    apply lookup_singleton_Some in H. destruct H as [<- <-]. reflexivity. }
  destruct (listing_has_each_path_once hs Hinv) as (Hnd & _ & Hlen).
  split; [exact Hinv|]. split; [exact Hnd|].
  rewrite Hlen. apply map_size_singleton.
Defined.

End ListingMore.

(** ** The handlers *)

Section HandlersMore.
Import Int.

Lemma prefix_app (pre s : string) : String.prefix pre (pre +:+ s) = true.
Proof.
  induction pre as [|a pre IH]; [destruct s; reflexivity|].
  change (String a pre +:+ s) with (String a (pre +:+ s)). simpl.
  destruct (ascii_dec a a); [exact IH | congruence].
Qed.

Lemma substring_skip (pre s : string) :
  substring (String.length pre) (String.length s) (pre +:+ s) = s.
Proof.
  induction pre as [|a pre IH]; [apply substring_all|].
  change (String a pre +:+ s) with (String a (pre +:+ s)). simpl. exact IH.
Qed.

Lemma length_string_app (pre s : string) :
  String.length (pre +:+ s) = (String.length pre + String.length s)%nat.
Proof.
  induction pre as [|a pre IH]; [reflexivity|].
  change (String a pre +:+ s) with (String a (pre +:+ s)). simpl. rewrite IH. reflexivity.
Qed.

(** [TrimPrefix] takes off a prefix that is there. *)
Lemma TrimPrefix_app (pre s : string) : strings_TrimPrefix (pre +:+ s) pre = s.
Proof.
  unfold strings_TrimPrefix. rewrite prefix_app, length_string_app.
  replace (String.length pre + String.length s - String.length pre)%nat
    with (String.length s) by lia.
  apply substring_skip.
Qed.

(** A write at the end of the file, whatever room the disk has. *)
Lemma file_Write_end_any (room : nat) (name : string) (b old : list byte)
    (d : gmap string inode) :
  file_Write room name (length old) b (<[name := Regular old]> d)
  = (Nat.min (length b) room,
     <[name := Regular (old ++ take room b)]> d).
Proof.
  unfold file_Write.
  rewrite lookup_insert_eq, write_at_end, insert_insert_eq.
  f_equal. f_equal. f_equal. f_equal.
  destruct (Nat.le_ge_cases (length b) room) as [H|H].
  - rewrite Nat.min_l by exact H. rewrite !firstn_all2 by lia. reflexivity.
  - rewrite Nat.min_r by exact H. reflexivity.
Qed.

(** [io.Copy] into a file stores as much of the body as the disk takes. *)
Lemma io_Copy_file_stores (name : string) (d : gmap string inode)
    (chunks : list (list byte)) :
  forall (room : nat) (written : list byte),
    io_Copy_file room name (length written) chunks (<[name := Regular written]> d)
    = <[name := Regular (written ++ take room (concat chunks))]> d.
Proof.
  induction chunks as [|c rest IH]; intros room written.
  - simpl. rewrite take_nil, app_nil_r. reflexivity.
  - cbn [io_Copy_file concat]. rewrite file_Write_end_any.
    destruct (Nat.ltb_spec (Nat.min (length c) room) (length c)) as [Hlt|Hge].
    + rewrite take_app_le by lia. reflexivity.
    + rewrite Nat.min_l by lia.
      rewrite firstn_all2 by lia.
      rewrite <- length_app, IH.
      rewrite take_app_ge by lia. rewrite app_assoc. reflexivity.
Qed.

End HandlersMore.

(** ** Create, then fetch *)

Section CreateMore.
Import Int.

Variables (hs : httpServer) (w : world) (r : request).

Let filePath : string := strings_TrimPrefix (URL_Path r) "/upload/".
Let name : string := filepath_Base filePath.
Let body : list byte := io_ReadAll (Body r).
Let record : list byte :=
  encodeCommand {| Kind := CreateFile; Path := filePath; OldPath := "";
                   NewPath := ""; Size := len body |}.
Let get : request := {| Method := MethodGet; URL_Path := URL_Path r; Body := [] |}.

Hypothesis Hpost : Method r = MethodPost.
Hypothesis Hleader : goraft.IsLeader (raft hs) = true.

(** When the local file cannot be created, which is when the name is taken
    by a directory or by a file the node may not open, the handler answers
    500 and stops: the node is as before, nothing is proposed and nothing
    pushed. *)
Theorem create_stops_when_file_cannot_be_created :
  (dataDir hs !! name = Some Directory \/ dataDir hs !! name = Some NoAccess) ->
  os_Create name (dataDir hs) = None
  /\ createFileHandler hs w r
     = Returned (http_Error "Failed to create local file" StatusInternalServerError,
                 hs, []).
Proof.
  intros Hn.
  assert (Hc : os_Create name (dataDir hs) = None).
  { unfold os_Create. destruct Hn as [-> | ->]; reflexivity. }
  split; [exact Hc|].
  unfold createFileHandler.
  rewrite bool_decide_eq_true_2 by exact Hpost. rewrite Hleader. cbn [negb].
  fold filePath. fold name. rewrite Hc. reflexivity.
Qed.

Hypothesis Hcreate : is_Some (os_Create name (dataDir hs)).

(** When the disk takes fewer bytes than the body has, the handler answers
    500 and proposes nothing, and the part of the body that was written
    stays in the data directory under the name. *)
Theorem create_stops_on_short_write :
  (room w < length body)%nat ->
  createFileHandler hs w r
  = Returned (http_Error "Failed to write file content" StatusInternalServerError,
              {| raft := raft hs; stateMachine := stateMachine hs;
                 dataDir := <[name := Regular (take (room w) body)]> (dataDir hs) |},
              []).
Proof.
  intros Hshort. destruct Hcreate as [d1 Hd1].
  unfold createFileHandler.
  rewrite bool_decide_eq_true_2 by exact Hpost. rewrite Hleader. cbn [negb].
  fold filePath. fold name. rewrite Hd1. fold body.
  rewrite (os_Create_Some _ _ _ Hd1).
  pose proof (file_Write_end_any (room w) name body [] (dataDir hs)) as W.
  cbn [length app] in W. rewrite W.
  rewrite Nat.min_r by lia.
  destruct (Nat.ltb_spec (room w) (length body)); [reflexivity | lia].
Qed.

Hypothesis Hreq : request_ok r.
Hypothesis Hroom : (length body <= room w)%nat.

(** Create, then fetch: after a Create that committed, a fetch of the same
    path on the same node answers 200 with the body that was uploaded, and
    the size in the metadata record is the number of bytes the fetch
    returns. *)
Theorem create_then_fetch :
  goraft.Propose (raft hs) record = None ->
  exists resp hs' evs meta,
    createFileHandler hs w r = Returned (resp, hs', evs)
    /\ getFileHandler hs' get = {| StatusCode := StatusOK; Content := body |}
    /\ files (stateMachine hs') !! filePath = Some meta
    /\ File.Size meta = len (Content (getFileHandler hs' get)).
Proof.
  intros Hp.
  pose proof (createFileHandler_after_write hs w r Hpost Hleader Hreq Hcreate Hroom) as H.
  cbv zeta in H. fold filePath name body record in H. rewrite Hp in H.
  assert (Hget : forall sm,
            sm !! filePath = Some (File.mk filePath (len body) (clock w)) ->
            getFileHandler {| raft := raft hs; stateMachine := {| files := sm |};
                              dataDir := <[name := Regular body]> (dataDir hs) |} get
            = {| StatusCode := StatusOK; Content := body |}).
  { intros sm Hsm. unfold getFileHandler. cbn [URL_Path get stateMachine files dataDir].
    fold filePath. rewrite Hsm. cbv zeta. fold name. rewrite lookup_insert_eq. reflexivity. }
  do 4 eexists. split; [exact H|].
  rewrite (Hget _ (lookup_insert_eq _ _ _)).
  split; [reflexivity|]. split; [apply lookup_insert_eq | reflexivity].
Qed.

(** A Create whose proposal failed is still visible to readers: when the
    path was already in the FileTable, a fetch after the failed write answers
    with the body of the failed write. *)
Theorem failed_create_is_readable (e : goraft.ApplyError) :
  goraft.Propose (raft hs) record = Some e ->
  is_Some (files (stateMachine hs) !! filePath) ->
  exists resp hs' evs,
    createFileHandler hs w r = Returned (resp, hs', evs)
    /\ StatusCode resp = StatusInternalServerError
    /\ getFileHandler hs' get = {| StatusCode := StatusOK; Content := body |}.
Proof.
  intros He [meta Hmeta].
  pose proof (createFileHandler_after_write hs w r Hpost Hleader Hreq Hcreate Hroom) as H.
  cbv zeta in H. fold filePath name body record in H. rewrite He in H.
  do 3 eexists. split; [exact H|]. split; [reflexivity|].
  unfold getFileHandler. cbn [URL_Path get stateMachine files dataDir].
  fold filePath. rewrite Hmeta. cbv zeta. fold name. rewrite lookup_insert_eq. reflexivity.
Qed.

End CreateMore.

Section CreateMoreExamples.
Import Example.

Lemma create_stops_when_file_cannot_be_created_witness :
  let hs := {| raft := leader; stateMachine := NewDFSStateMachine;
               dataDir := {[ "."%string := Directory ]} |} in
  let r := {| Method := MethodPost; URL_Path := "/upload/"; Body := [hello] |} in
  filepath_Base (strings_TrimPrefix (URL_Path r) "/upload/") = "."%string
  /\ createFileHandler hs all_up r
     = Returned (http_Error "Failed to create local file" StatusInternalServerError,
                 hs, []).
Proof.
  intros hs r. split; [reflexivity|].
  exact (proj2 (create_stops_when_file_cannot_be_created hs all_up r eq_refl eq_refl
                  (or_introl eq_refl))).
Defined.

Lemma create_stops_on_short_write_witness :
  let w := {| clock := 7; room := 2; peer := fun _ => Responded StatusOK |} in
  exists hs',
    createFileHandler (node leader) w upload
    = Returned (http_Error "Failed to write file content" StatusInternalServerError,
                hs', [])
    /\ dataDir hs' !! "f.txt"%string = Some (Regular (list_byte_of_string "he")).
Proof.
  intros w.
  assert (Hshort : (room w < length (io_ReadAll (Body upload)))%nat)
    by (apply Nat.ltb_lt; reflexivity).
  eexists. split.
  - exact (create_stops_on_short_write (node leader) w upload eq_refl eq_refl
             (upload_creates leader) Hshort).
  - reflexivity.
Defined.

Lemma create_then_fetch_witness :
  exists resp hs' evs,
    createFileHandler (node leader) one_down upload = Returned (resp, hs', evs)
    /\ getFileHandler hs' {| Method := MethodGet; URL_Path := "/upload/docs/f.txt";
                             Body := [] |}
       = {| StatusCode := StatusOK; Content := hello |}.
Proof.
  destruct (create_then_fetch (node leader) one_down upload eq_refl eq_refl
              (upload_creates leader) upload_ok (upload_fits one_down eq_refl) eq_refl)
    as (resp & hs' & evs & meta & Hrun & Hget & _).
  exists resp, hs', evs. split; [exact Hrun | exact Hget].
Defined.

Lemma failed_create_is_readable_witness :
  let hs := {| raft := isolated;
               stateMachine := {| files := {[ "docs/f.txt"%string
                                                := File.mk "docs/f.txt" 3 1 ]} |};
               dataDir := {[ "f.txt"%string := Regular (list_byte_of_string "old") ]} |} in
  exists resp hs' evs,
    createFileHandler hs one_down upload = Returned (resp, hs', evs)
    /\ StatusCode resp = StatusInternalServerError
    /\ getFileHandler hs' {| Method := MethodGet; URL_Path := "/upload/docs/f.txt";
                             Body := [] |}
       = {| StatusCode := StatusOK; Content := hello |}.
Proof.
  intros hs.
  assert (Hc : is_Some (os_Create
                 (filepath_Base (strings_TrimPrefix (URL_Path upload) "/upload/"))
                 (dataDir hs))) by (eexists; reflexivity).
  assert (Hm : is_Some (files (stateMachine hs)
                        !! strings_TrimPrefix (URL_Path upload) "/upload/"))
    by (eexists; reflexivity).
  exact (failed_create_is_readable hs one_down upload eq_refl eq_refl Hc upload_ok
           (upload_fits one_down eq_refl) goraft.ReplicationTimeout eq_refl Hm).
Defined.

End CreateMoreExamples.

(** ** Names in the data directory *)

Section NamesMore.

Lemma upto_separator_flat (l : list ascii) : "/"%char ∉ upto_separator l.
Proof.
  induction l as [|c l IH]; simpl; [apply not_elem_of_nil|].
  unfold IsPathSeparator. case_bool_decide as Hc; [apply not_elem_of_nil|].
  intros Hin. apply elem_of_cons in Hin. destruct Hin as [Hin|Hin]; [congruence | exact (IH Hin)].
Qed.

(** The name under which the handlers store and look up content is never
    empty, and it contains no separator unless it is ["/"] itself: the data
    directory is flat. *)
Theorem filepath_Base_is_flat (path : string) :
  filepath_Base path <> ""%string
  /\ (filepath_Base path = "/"%string
      \/ "/"%char ∉ list_ascii_of_string (filepath_Base path)).
Proof.
  unfold filepath_Base. case_decide as Hp.
  - split; [discriminate|]. right. simpl. intros Hin.
    apply list_elem_of_singleton in Hin. discriminate Hin.
  - cbv zeta. case_decide as He.
    + split; [discriminate | left; reflexivity].
    + split.
      * intros H. apply (f_equal list_ascii_of_string) in H.
        rewrite list_ascii_of_string_of_list_ascii in H. exact (He H).
      * right. rewrite list_ascii_of_string_of_list_ascii.
        rewrite elem_of_reverse. apply upto_separator_flat.
Qed.

(** Two paths with the same last element share one file: after Creates of
    both have committed, a fetch of the first path answers with the body
    uploaded for the second, while the metadata of the first path still
    records the size of its own body. *)
Theorem same_last_element_shares_content (hs : httpServer) (w1 w2 : world)
    (r1 r2 : request) :
  let p1 := strings_TrimPrefix (URL_Path r1) "/upload/" in
  let p2 := strings_TrimPrefix (URL_Path r2) "/upload/" in
  let body1 := io_ReadAll (Body r1) in
  let body2 := io_ReadAll (Body r2) in
  Method r1 = MethodPost -> Method r2 = MethodPost ->
  goraft.IsLeader (raft hs) = true ->
  request_ok r1 -> request_ok r2 ->
  is_Some (os_Create (filepath_Base p1) (dataDir hs)) ->
  (length body1 <= room w1)%nat -> (length body2 <= room w2)%nat ->
  (forall rec, goraft.Propose (raft hs) rec = None) ->
  p1 <> p2 -> filepath_Base p1 = filepath_Base p2 ->
  exists resp1 hs1 evs1 resp2 hs2 evs2,
    createFileHandler hs w1 r1 = Returned (resp1, hs1, evs1)
    /\ createFileHandler hs1 w2 r2 = Returned (resp2, hs2, evs2)
    /\ getFileHandler hs2 {| Method := MethodGet; URL_Path := URL_Path r1; Body := [] |}
       = {| StatusCode := StatusOK; Content := body2 |}
    /\ files (stateMachine hs2) !! p1 = Some (File.mk p1 (len body1) (clock w1)).
Proof.
  intros p1 p2 body1 body2 Hm1 Hm2 Hl Hr1 Hr2 Hc1 Hroom1 Hroom2 Hcommit Hne Hbase.
  pose proof (createFileHandler_after_write hs w1 r1 Hm1 Hl Hr1 Hc1 Hroom1) as H1.
  cbv zeta in H1. fold p1 body1 in H1. rewrite Hcommit in H1.
  set (hs1 := {| raft := raft hs;
                 stateMachine :=
                   {| files := <[p1 := File.mk p1 (len body1) (clock w1)]>
                                 (files (stateMachine hs)) |};
                 dataDir := <[filepath_Base p1 := Regular body1]> (dataDir hs) |}) in *.
  assert (Hc2 : is_Some (os_Create
                  (filepath_Base (strings_TrimPrefix (URL_Path r2) "/upload/"))
                  (dataDir hs1))).
  { fold p2. rewrite <- Hbase. unfold os_Create. cbn [dataDir hs1].
    rewrite lookup_insert_eq. eexists. reflexivity. }
  pose proof (createFileHandler_after_write hs1 w2 r2 Hm2 Hl Hr2 Hc2 Hroom2) as H2.
  cbv zeta in H2. fold p2 body2 in H2. cbn [raft hs1] in H2. rewrite Hcommit in H2.
  do 6 eexists. split; [exact H1|]. split; [exact H2|].
  cbn [stateMachine files dataDir hs1]. split.
  - unfold getFileHandler. cbn [URL_Path stateMachine files dataDir]. fold p1.
    rewrite lookup_insert_ne by congruence. rewrite lookup_insert_eq. cbv zeta.
    rewrite Hbase, lookup_insert_eq. reflexivity.
  - rewrite lookup_insert_ne by congruence. apply lookup_insert_eq.
Qed.

End NamesMore.

Section NamesMoreExamples.
Import Example.

Lemma same_last_element_shares_content_witness :
  let r2 := {| Method := MethodPost; URL_Path := "/upload/img/f.txt";
               Body := [list_byte_of_string "other"] |} in
  exists resp1 hs1 evs1 resp2 hs2 evs2,
    createFileHandler (node leader) all_up upload = Returned (resp1, hs1, evs1)
    /\ createFileHandler hs1 all_up r2 = Returned (resp2, hs2, evs2)
    /\ getFileHandler hs2 {| Method := MethodGet; URL_Path := "/upload/docs/f.txt";
                             Body := [] |}
       = {| StatusCode := StatusOK; Content := list_byte_of_string "other" |}
    /\ files (stateMachine hs2) !! "docs/f.txt"%string = Some (File.mk "docs/f.txt" 5 7).
Proof.
  intros r2.
  assert (Hr2 : request_ok r2) by (split; vm_compute; reflexivity).
  assert (Hroom2 : (length (io_ReadAll (Body r2)) <= room all_up)%nat)
    by (apply Nat.leb_le; reflexivity).
  assert (Hne : strings_TrimPrefix (URL_Path upload) "/upload/"
                <> strings_TrimPrefix (URL_Path r2) "/upload/") by discriminate.
  exact (same_last_element_shares_content (node leader) all_up all_up upload r2
           eq_refl eq_refl eq_refl upload_ok Hr2 (upload_creates leader)
           (upload_fits all_up eq_refl) Hroom2 (fun _ => eq_refl) Hne eq_refl).
Defined.

End NamesMoreExamples.

(** ** Pushes *)

Section PushMore.

(** [replicateFileHandler] checks neither the method nor who is asking.  It
    answers 200 once the file could be created, with as much of the body
    stored under the last element of the path as the disk took: all of it
    when there is room, a prefix otherwise, acknowledged all the same.  When
    the file cannot be created it answers 500 and leaves the node as it
    was.  It never touches the FileTable. *)
Theorem replicate_stores_what_fits (hs : httpServer) (w : world) (r : request) :
  let name := filepath_Base (strings_TrimPrefix (URL_Path r) "/replicate/") in
  (is_Some (os_Create name (dataDir hs)) ->
   replicateFileHandler hs w r
   = ({| StatusCode := StatusOK;
         Content := list_byte_of_string "File replicated successfully" |},
      {| raft := raft hs; stateMachine := stateMachine hs;
         dataDir := <[name := Regular (take (room w) (io_ReadAll (Body r)))]>
                      (dataDir hs) |}))
  /\ (os_Create name (dataDir hs) = None ->
      replicateFileHandler hs w r
      = (http_Error "Failed to create local file for replication"
                    StatusInternalServerError, hs))
  /\ stateMachine (replicateFileHandler hs w r).2 = stateMachine hs.
Proof.
  intros name. unfold replicateFileHandler. fold name.
  split; [|split].
  - intros [d1 Hd1]. rewrite Hd1. rewrite (os_Create_Some _ _ _ Hd1).
    pose proof (io_Copy_file_stores name (dataDir hs) (Body r) (room w) []) as H.
    cbn [length app] in H. rewrite H. reflexivity.
  - intros ->. reflexivity.
  - destruct (os_Create name (dataDir hs)); reflexivity.
Qed.

(** Push, then fetch: after a push of a body the disk has room for, a fetch
    of the path on that node answers with the body when the path is in the
    FileTable of the node, and with "File not found" when it is not, although
    the content is there. *)
Theorem push_then_fetch (hs : httpServer) (w : world) (path : string)
    (chunks : list (list byte)) :
  let push := {| Method := MethodPost; URL_Path := "/replicate/" +:+ path;
                 Body := chunks |} in
  let get := {| Method := MethodGet; URL_Path := "/upload/" +:+ path; Body := [] |} in
  let hs' := (replicateFileHandler hs w push).2 in
  is_Some (os_Create (filepath_Base path) (dataDir hs)) ->
  (length (io_ReadAll chunks) <= room w)%nat ->
  dataDir hs' !! filepath_Base path = Some (Regular (io_ReadAll chunks))
  /\ (is_Some (files (stateMachine hs) !! path) ->
      getFileHandler hs' get = {| StatusCode := StatusOK; Content := io_ReadAll chunks |})
  /\ (files (stateMachine hs) !! path = None -> getFileHandler hs' get = NotFound).
Proof.
  intros push get hs' Hc Hroom.
  destruct (replicate_stores_what_fits hs w push) as (Hok & _ & _).
  cbv zeta in Hok. cbn [URL_Path push] in Hok. rewrite TrimPrefix_app in Hok.
  specialize (Hok Hc). cbn [Body push] in Hok.
  rewrite firstn_all2 in Hok by exact Hroom.
  unfold hs'. rewrite Hok. cbn [snd dataDir].
  split; [apply lookup_insert_eq|].
  unfold getFileHandler. cbn [URL_Path get stateMachine dataDir].
  rewrite TrimPrefix_app. split.
  - intros [meta ->]. cbv zeta. rewrite lookup_insert_eq. reflexivity.
  - intros ->. reflexivity.
Qed.


End PushMore.

Section PushMoreExamples.
Import Example.

Lemma push_then_fetch_witness :
  let hs := {| raft := follower;
               stateMachine := {| files := {[ "docs/f.txt"%string
                                                := File.mk "docs/f.txt" 5 7 ]} |};
               dataDir := ∅ |} in
  let push := {| Method := MethodPost; URL_Path := "/replicate/docs/f.txt";
                 Body := [list_byte_of_string "he"; list_byte_of_string "llo"] |} in
  getFileHandler (replicateFileHandler hs all_up push).2
                 {| Method := MethodGet; URL_Path := "/upload/docs/f.txt"; Body := [] |}
  = {| StatusCode := StatusOK; Content := hello |}.
Proof.
  intros hs push.
  assert (Hc : is_Some (os_Create (filepath_Base "docs/f.txt") (dataDir hs)))
    by (eexists; reflexivity).
  assert (Hroom : (length (io_ReadAll (Body push)) <= room all_up)%nat)
    by (apply Nat.leb_le; reflexivity).
  destruct (push_then_fetch hs all_up "docs/f.txt" (Body push) Hc Hroom) as (_ & Hget & _).
  apply Hget. eexists. reflexivity.
Defined.

End PushMoreExamples.

(** ** Every upload request is answered *)

Section UploadMore.
Import Int.

Lemma createFileHandler_answers (hs : httpServer) (w : world) (r : request) :
  let filePath := strings_TrimPrefix (URL_Path r) "/upload/" in
  let record := encodeCommand {| Kind := CreateFile; Path := filePath; OldPath := "";
                                 NewPath := ""; Size := len (io_ReadAll (Body r)) |} in
  request_ok r ->
  exists resp hs' evs,
    createFileHandler hs w r = Returned (resp, hs', evs)
    /\ (forall rec, EvPropose rec ∈ evs -> rec = record).
Proof.
  intros filePath record Hr.
  pose proof (proposed_command_ok r "/upload/" Hr) as Hok. fold filePath in Hok.
  unfold createFileHandler. fold filePath.
  destruct (negb (bool_decide (Method r = MethodPost))).
  { do 3 eexists. split; [reflexivity|]. intros rec H. apply elem_of_nil in H. destruct H. }
  destruct (negb (goraft.IsLeader (raft hs))).
  { do 3 eexists. split; [reflexivity|]. intros rec H. apply elem_of_nil in H. destruct H. }
  destruct (os_Create (filepath_Base filePath) (dataDir hs)) as [d1|].
  2:{ do 3 eexists. split; [reflexivity|]. intros rec H. apply elem_of_nil in H. destruct H. }
  unfold file_Write.
  destruct (Nat.ltb_spec (Nat.min (length (io_ReadAll (Body r))) (room w))
                         (length (io_ReadAll (Body r)))) as [Hlt|Hge].
  { do 3 eexists. split; [reflexivity|]. intros rec H. apply elem_of_nil in H. destruct H. }
  assert (Hn : Nat.min (length (io_ReadAll (Body r))) (room w)
               = length (io_ReadAll (Body r))) by lia.
  rewrite Hn. fold (len (io_ReadAll (Body r))). fold record.
  unfold goraft.Apply. destruct (goraft.Propose (raft hs) record) as [e|].
  - do 3 eexists. split; [reflexivity|].
    intros rec H. apply elem_of_cons in H. destruct H as [[= ->]|H]; [reflexivity|].
    apply list_elem_of_singleton in H. discriminate H.
  - unfold record. rewrite Apply_CreateFile by (exact Hok || reflexivity).
    do 3 eexists. split; [reflexivity|].
    intros rec H. apply elem_of_cons in H. destruct H as [[= ->]|H]; [reflexivity|].
    pose proof (replicateToFollowers_no_propose hs w filePath (io_ReadAll (Body r))) as Hno.
    rewrite Forall_forall in Hno. destruct (Hno _ H rec eq_refl).
Qed.

(** [uploadHandler] answers every request a program can hold: it never
    panics.  Only a POST can change the node or cause an event; and the only
    record a request ever has proposed is a CreateFile for its own path with
    the length of its own body as size, so no request deletes or renames. *)
Theorem uploadHandler_answers (hs : httpServer) (w : world) (r : request) :
  request_ok r ->
  exists resp hs' evs,
    uploadHandler hs w r = Returned (resp, hs', evs)
    /\ (Method r <> MethodPost -> hs' = hs /\ evs = [])
    /\ (forall rec, EvPropose rec ∈ evs ->
          decodeCommand rec
          = Returned {| Kind := CreateFile;
                        Path := strings_TrimPrefix (URL_Path r) "/upload/";
                        OldPath := ""; NewPath := "";
                        Size := len (io_ReadAll (Body r)) |}).
Proof.
  intros Hr. unfold uploadHandler.
  case_bool_decide as Hget.
  { do 3 eexists. split; [reflexivity|]. split; [auto|].
    intros rec H. apply elem_of_nil in H. destruct H. }
  case_bool_decide as Hpost.
  - destruct (createFileHandler_answers hs w r Hr) as (resp & hs' & evs & Hrun & Hrec).
    exists resp, hs', evs. split; [exact Hrun|]. split; [intros Hne; destruct (Hne Hpost)|].
    intros rec H. rewrite (Hrec rec H). apply decode_encode.
    exact (proposed_command_ok r "/upload/" Hr).
  - do 3 eexists. split; [reflexivity|]. split; [auto|].
    intros rec H. apply elem_of_nil in H. destruct H.
Qed.

Lemma uploadHandler_answers_witness :
  let r := {| Method := "DELETE"; URL_Path := "/upload/docs/f.txt"; Body := [] |} in
  request_ok r
  /\ exists resp, uploadHandler (Example.node Example.leader) Example.all_up r
                  = Returned (resp, Example.node Example.leader, []).
Proof.
  intros r.
  assert (Hr : request_ok r) by (split; vm_compute; reflexivity).
  split; [exact Hr|].
  destruct (uploadHandler_answers (Example.node Example.leader) Example.all_up r Hr)
    as (resp & hs' & evs & Hrun & Hnop & _).
  assert (Hne : Method r <> MethodPost) by discriminate.
  destruct (Hnop Hne) as [-> ->].
  exists resp. exact Hrun.
Defined.

End UploadMore.

(** ** The command line *)

Section ConfigMore.

Lemma strings_Split_length (sep : ascii) (s : string) :
  (1 <= length (strings_Split sep s))%nat.
Proof.
  induction s as [|c s IH]; simpl; [lia|].
  case_decide; simpl; [lia|].
  destruct (strings_Split sep s); simpl in *; lia.
Qed.

Lemma cluster_entries_length (parts : list string) :
  forall acc ms, cluster_entries parts acc = Started ms ->
                 length ms = (length acc + length parts)%nat.
Proof.
  induction parts as [|part rest IH]; intros acc ms.
  - intros [= <-]. simpl. lia.
  - cbn [cluster_entries]. unfold mbind, startup_bind.
    destruct (cluster_entry part) as [m|f]; [|discriminate].
    intros H. apply IH in H. rewrite length_app in H. simpl in *. lia.
Qed.

Lemma strconv_Atoi_nonempty (s : string) (i : Z) : strconv_Atoi s = Some i -> s <> ""%string.
Proof. intros H ->. discriminate H. Qed.

Lemma getConfig_loop_step (arg value : string) (rest : list string) (cfg : config)
    (node : string) :
  getConfig_loop (arg :: value :: rest) cfg node
  = if decide (arg = "--node"%string) then
      match strconv_Atoi value with
      | Some n =>
          getConfig_loop rest
            {| cluster := cluster cfg; index := n; http := http cfg |} value
      | None => Fatal (ExpectedIntegerForNode value)
      end
    else if decide (arg = "--http"%string) then
      getConfig_loop rest
        {| cluster := cluster cfg; index := index cfg; http := value |} node
    else if decide (arg = "--cluster"%string) then
      ms ← cluster_entries (strings_Split ";"%char value) (cluster cfg);
      getConfig_loop rest
        {| cluster := ms; index := index cfg; http := http cfg |} node
    else getConfig_loop (value :: rest) cfg node.
Proof. reflexivity. Qed.

(** What the loop changes, a flag asked for. *)
Lemma getConfig_loop_flags (n : nat) :
  forall (args : list string) (cfg cfg' : config) (node node' : string),
    (length args <= n)%nat ->
    getConfig_loop args cfg node = Started (cfg', node') ->
    (node' <> node -> "--node"%string ∈ args)
    /\ (http cfg' <> http cfg -> "--http"%string ∈ args)
    /\ (cluster cfg' <> cluster cfg -> "--cluster"%string ∈ args).
Proof.
  induction n as [|n IH]; intros args cfg cfg' node node' Hlen.
  - destruct args; [|simpl in Hlen; lia].
    intros [= <- <-]. repeat split; intros H; destruct (H eq_refl).
  - destruct args as [|arg [|value rest]].
    + intros [= <- <-]. repeat split; intros H; destruct (H eq_refl).
    + intros [= <- <-]. repeat split; intros H; destruct (H eq_refl).
    + rewrite getConfig_loop_step. simpl in Hlen.
      case_decide as Hnode; [|case_decide as Hhttp; [|case_decide as Hcluster]].
      * destruct (strconv_Atoi value) as [i|]; [|discriminate].
        intros H. apply IH in H; [|lia]. cbn [http cluster] in H.
        destruct H as (_ & Hh & Hc). subst arg.
        split; [intros _; apply list_elem_of_here|].
        split; intros H; do 2 apply list_elem_of_further; auto.
      * intros H. apply IH in H; [|lia]. cbn [http cluster] in H.
        destruct H as (Hn & _ & Hc). subst arg.
        split; [intros H; do 2 apply list_elem_of_further; auto|].
        split; [intros _; apply list_elem_of_here|].
        intros H; do 2 apply list_elem_of_further; auto.
      * unfold mbind, startup_bind.
        destruct (cluster_entries (strings_Split ";"%char value) (cluster cfg)) as [ms|f];
          [|discriminate].
        intros H. apply IH in H; [|lia]. cbn [http cluster] in H.
        destruct H as (Hn & Hh & _). subst arg.
        split; [intros H; do 2 apply list_elem_of_further; auto|].
        split; [intros H; do 2 apply list_elem_of_further; auto|].
        intros _. apply list_elem_of_here.
      * intros H. apply IH in H; [|simpl; lia].
        destruct H as (Hn & Hh & Hc).
        repeat split; intros H; apply list_elem_of_further; auto.
Qed.

(** [getConfig] returns only when each of [--node], [--http] and
    [--cluster] is among the arguments, and what it returns has an HTTP
    address and at least one cluster member.  In every other case the
    process ends with a fatal log line. *)
Theorem getConfig_requires_all_flags (args : list string) (cfg : config) :
  getConfig args = Started cfg ->
  "--node"%string ∈ args /\ "--http"%string ∈ args /\ "--cluster"%string ∈ args
  /\ http cfg <> ""%string /\ cluster cfg <> [].
Proof.
  unfold getConfig, mbind, startup_bind.
  destruct (getConfig_loop args _ _) as [[cfg' node']|f] eqn:E; [|discriminate].
  repeat case_decide; try discriminate. intros [= <-].
  destruct (getConfig_loop_flags (length args) args _ _ _ _ (Nat.le_refl _) E)
    as (Hn & Hh & Hc).
  cbn [http cluster] in *.
  split; [apply Hn; assumption|]. split; [apply Hh; assumption|].
  split; [apply Hc; assumption|]. split; assumption.
Qed.

(** The usual invocation is accepted: for a program name that is not a flag,
    a node index [Atoi] reads, a nonempty HTTP address and a cluster list
    whose every entry has three fields and a numeric id, [getConfig] returns
    the index, the address and the members in the order given.  The index is
    not compared with the size of the cluster. *)
Theorem getConfig_accepts (prog n h c : string) (i : Z)
    (ms : list goraft.ClusterMember) :
  prog <> "--node"%string -> prog <> "--http"%string -> prog <> "--cluster"%string ->
  strconv_Atoi n = Some i ->
  h <> ""%string ->
  cluster_entries (strings_Split ";"%char c) [] = Started ms ->
  getConfig [prog; "--node"; n; "--http"; h; "--cluster"; c]%string
  = Started {| cluster := ms; index := i; http := h |}.
Proof.
  intros Hp1 Hp2 Hp3 Hn Hh Hc.
  unfold getConfig. cbn [getConfig_loop].
  rewrite !(decide_False (P := prog = _)) by assumption.
  rewrite decide_True by reflexivity. rewrite Hn.
  rewrite decide_False by discriminate. rewrite decide_True by reflexivity.
  rewrite decide_False by discriminate. rewrite decide_False by discriminate.
  rewrite decide_True by reflexivity.
  cbn [cluster index http]. rewrite Hc.
  unfold mbind, startup_bind, mret.
  rewrite decide_False by (apply (strconv_Atoi_nonempty n i); exact Hn).
  cbn [http cluster].
  rewrite decide_False by exact Hh.
  rewrite decide_False; [reflexivity|].
  intros ->. apply cluster_entries_length in Hc.
  pose proof (strings_Split_length ";"%char c). simpl in Hc. lia.
Qed.

Lemma getConfig_accepts_witness :
  getConfig ["dfsapi.exe"; "--node"; "0"; "--http"; "localhost:8081"; "--cluster";
             "1,localhost:3030,localhost:8081;2,localhost:3031,localhost:8082;3,localhost:3032,localhost:8083"]%string
  = Started {| cluster := [Example.n1; Example.n2; Example.n3]; index := 0;
               http := "localhost:8081" |}.
Proof.
  apply getConfig_accepts; try discriminate; vm_compute; reflexivity.
Defined.

Lemma getConfig_requires_all_flags_witness :
  let args := ["dfsapi.exe"; "--cluster"; "4,a:1,b:2"; "--http"; ":80"; "--node"; "-1"]%string in
  let cfg := {| cluster := [goraft.mkMember 4 "a:1" "b:2"]; index := -1; http := ":80" |} in
  getConfig args = Started cfg
  /\ "--node"%string ∈ args /\ http cfg <> ""%string.
Proof.
  intros args cfg.
  assert (H : getConfig args = Started cfg) by (vm_compute; reflexivity).
  destruct (getConfig_requires_all_flags args cfg H) as (Hn & _ & _ & Hh & _).
  split; [exact H|]. split; [exact Hn | exact Hh].
Defined.

End ConfigMore.

Section PushShortExample.
Import Example.

Lemma replicate_stores_what_fits_witness :
  let full := {| clock := 7; room := 3; peer := fun _ => Responded StatusOK |} in
  let push := {| Method := MethodGet; URL_Path := "/replicate/docs/f.txt";
                 Body := [list_byte_of_string "he"; list_byte_of_string "llo"] |} in
  exists hs',
    replicateFileHandler (node follower) full push
    = ({| StatusCode := StatusOK;
          Content := list_byte_of_string "File replicated successfully" |}, hs')
    /\ dataDir hs' !! "f.txt"%string = Some (Regular (list_byte_of_string "hel")).
Proof.
  intros full push.
  destruct (replicate_stores_what_fits (node follower) full push) as (Hok & _ & _).
  eexists. split.
  - apply Hok. eexists. reflexivity.
  - reflexivity.
Defined.

End PushShortExample.
